(** * CodeLyzer security analyzer: a shallow embedding and its properties

    The development follows [src/codelyzer/analyzers/security.py].  The
    analyzer scans raw file content with a fixed set of regular expressions,
    records one vulnerability per match, lowers a per-file score and, at
    project level, counts vulnerabilities by type.

    Conventions of the embedding:
    - file content is a [list ascii]; a character stands for the code point
      of the same number, so the embedding covers content whose code points
      are below 256;
    - Python integers (offsets, lines, columns) are [Z];
    - [security_score] is a Python float.  Every value the analyzer computes
      from 100.0 is an integer between -25 and 100, which binary64
      represents exactly and on which subtraction and [max] are exact, so
      the score is carried as a [Z];
    - the mutable [FileMetrics] object is threaded explicitly: every method
      that mutates it takes the record and returns the updated one;
    - calls to the logger and to [debug_log] only emit text and are left
      out. *)

From Stdlib Require Import ZArith Ascii String List Lia Permutation Sorted.
From stdpp Require Import gmap strings list fin_maps pretty.

Local Open Scope Z_scope.

(** ** Characters *)

Module Chars.

Definition code (c : ascii) : N := N_of_ascii c.

Definition between (lo hi : N) (c : ascii) : bool :=
  ((lo <=? code c) && (code c <=? hi))%N.

Definition is_upper (c : ascii) : bool := between 65 90 c.
Definition is_lower (c : ascii) : bool := between 97 122 c.
Definition is_digit (c : ascii) : bool := between 48 57 c.

(** [str.lower] on one character, for the letters the patterns contain.  No
    code point between 128 and 255 folds to an ASCII letter. *)
Definition to_lower (c : ascii) : ascii :=
  if is_upper c then ascii_of_N (code c + 32) else c.

Definition to_upper (c : ascii) : ascii :=
  if is_lower c then ascii_of_N (code c - 32) else c.

(** [\s] of a [str] pattern: the characters for which [str.isspace] holds. *)
Definition is_space (c : ascii) : bool :=
  between 9 13 c || between 28 32 c || (code c =? 133)%N || (code c =? 160)%N.

(** [\w] of a [str] pattern: alphanumeric characters and the underscore. *)
Definition is_word (c : ascii) : bool :=
  is_digit c || is_upper c || is_lower c || (code c =? 95)%N
  || (code c =? 170)%N || (code c =? 178)%N || (code c =? 179)%N
  || (code c =? 181)%N || (code c =? 185)%N || (code c =? 186)%N
  || between 188 190 c || between 192 214 c || between 216 246 c
  || between 248 255 c.

Definition eqb (a b : ascii) : bool := Ascii.eqb a b.

Definition newline : ascii := "010"%char.

End Chars.

(** ** The fragment of Python's [re] the rule patterns are written in *)

Module Re.

(** A character class: a bracket expression or an escape such as [\s]. *)
Inductive charclass : Type :=
| OneOf (cs : list ascii)      (* [abc] *)
| NoneOf (cs : list ascii)     (* [^abc] *)
| Space                        (* \s *)
| Word.                        (* \w *)

Inductive regex : Type :=
| Eps
| Lit (c : ascii)              (* a literal character *)
| Cls (cl : charclass)         (* one character of a class *)
| Star (cl : charclass)        (* cl*, greedy *)
| Plus (cl : charclass)        (* cl+, greedy *)
| Opt (cl : charclass)         (* cl?, greedy *)
| Seq (r1 r2 : regex)
| NegLook (r : regex).         (* (?!r) *)

(** The literal text [s] as a pattern. *)
Fixpoint lit (s : list ascii) : regex :=
  match s with
  | [] => Eps
  | c :: s' => Seq (Lit c) (lit s')
  end.

Fixpoint seq (rs : list regex) : regex :=
  match rs with
  | [] => Eps
  | r :: rs' => Seq r (seq rs')
  end.

Definition mem (c : ascii) (cs : list ascii) : bool :=
  existsb (Chars.eqb c) cs.

(** With [re.IGNORECASE] ([ic = true]) a character matches when it or its
    other case does. *)
Definition lit_matches (ic : bool) (c x : ascii) : bool :=
  if ic then Chars.eqb (Chars.to_lower c) (Chars.to_lower x)
  else Chars.eqb c x.

Definition in_set (ic : bool) (cs : list ascii) (x : ascii) : bool :=
  if ic then mem x cs || mem (Chars.to_lower x) cs || mem (Chars.to_upper x) cs
  else mem x cs.

Definition in_class (ic : bool) (cl : charclass) (x : ascii) : bool :=
  match cl with
  | OneOf cs => in_set ic cs x
  | NoneOf cs => negb (in_set ic cs x)
  | Space => Chars.is_space x
  | Word => Chars.is_word x
  end.

(** The matcher is the backtracking search of [re] in continuation-passing
    style: [k] is what remains of the pattern, the result is the input left
    after the first successful alternative.  Greedy repetition tries the
    longest run first and gives characters back one at a time. *)
Fixpoint star_greedy (p : ascii -> bool)
    (k : list ascii -> option (list ascii)) (s : list ascii)
    : option (list ascii) :=
  match s with
  | x :: s' =>
      if p x then
        match star_greedy p k s' with
        | Some rest => Some rest
        | None => k s
        end
      else k s
  | [] => k []
  end.

Fixpoint run (ic : bool) (r : regex)
    (k : list ascii -> option (list ascii)) (s : list ascii)
    : option (list ascii) :=
  match r with
  | Eps => k s
  | Lit c =>
      match s with
      | x :: s' => if lit_matches ic c x then k s' else None
      | [] => None
      end
  | Cls cl =>
      match s with
      | x :: s' => if in_class ic cl x then k s' else None
      | [] => None
      end
  | Star cl => star_greedy (in_class ic cl) k s
  | Plus cl =>
      match s with
      | x :: s' =>
          if in_class ic cl x then star_greedy (in_class ic cl) k s' else None
      | [] => None
      end
  | Opt cl =>
      match s with
      | x :: s' =>
          if in_class ic cl x then
            match k s' with
            | Some rest => Some rest
            | None => k s
            end
          else k s
      | [] => k []
      end
  | Seq r1 r2 => run ic r1 (run ic r2 k) s
  | NegLook r' =>
      match run ic r' Some s with
      | Some _ => None
      | None => k s
      end
  end.

(** [pattern.match] anchored at the head of [s]: the input left after the
    match. *)
Definition match_here (ic : bool) (r : regex) (s : list ascii)
    : option (list ascii) :=
  run ic r Some s.

(** A match object: [start()] and [group(0)]. *)
Record rmatch : Type := MkMatch {
  m_start : nat;
  m_group0 : list ascii
}.

(** [re.finditer]: the non-overlapping matches, left to right.  [pos] is the
    offset of [s] in the content and [skip] the number of characters of [s]
    that the previous match still covers.  After an empty match the search
    resumes one character further; no rule pattern has an empty match, each
    begins with a literal character. *)
Fixpoint finditer_from (ic : bool) (r : regex) (s : list ascii)
    (pos skip : nat) : list rmatch :=
  match skip with
  | S skip' =>
      match s with
      | [] => []
      | _ :: s' => finditer_from ic r s' (S pos) skip'
      end
  | O =>
      match match_here ic r s with
      | Some rest =>
          let n := (length s - length rest)%nat in
          MkMatch pos (firstn n s) ::
            match s with
            | [] => []
            | _ :: s' => finditer_from ic r s' (S pos) (Nat.pred n)
            end
      | None =>
          match s with
          | [] => []
          | _ :: s' => finditer_from ic r s' (S pos) 0
          end
      end
  end.

Definition finditer (ic : bool) (r : regex) (content : list ascii)
    : list rmatch :=
  finditer_from ic r content 0 0.

End Re.

(** ** Data model *)

(** Modelled from the spec: the enumeration [SecurityLevel] is declared in
    [codelyzer.metrics], which is not among the sources.  The spec lists its
    four severities; [OTHER_LEVEL] stands for any further member, which
    [_add_vulnerability] and [_level_to_severity] send to their last
    branch. *)
Inductive SecurityLevel : Type :=
| CRITICAL
| HIGH_RISK
| MEDIUM_RISK
| LOW_RISK
| OTHER_LEVEL.

Definition SecurityLevel_eqb (a b : SecurityLevel) : bool :=
  match a, b with
  | CRITICAL, CRITICAL | HIGH_RISK, HIGH_RISK | MEDIUM_RISK, MEDIUM_RISK
  | LOW_RISK, LOW_RISK | OTHER_LEVEL, OTHER_LEVEL => true
  | _, _ => false
  end.

(** The dict returned by [_get_line_number]. *)
Record Location : Type := MkLocation {
  line : Z;
  column : Z;
  position : Z
}.

(** A vulnerability dict.  [analyze_project] reads the ['type'] key with a
    default, so the key is optional here; [_add_vulnerability] always sets
    it. *)
Record Vulnerability : Type := MkVulnerability {
  v_type : option string;
  v_message : string;
  v_location : Location;
  v_level : SecurityLevel;
  v_severity : string
}.

(** Modelled from the spec: [FileMetrics] and its [security] member are
    declared in [codelyzer.metrics], which is not among the sources.  The
    spec gives the file record an ordered vulnerability sequence and a score
    initialised to 100.0. *)
Record SecurityMetrics : Type := MkSecurityMetrics {
  vulnerabilities : list Vulnerability;
  security_score : Z
}.

Record FileMetrics : Type := MkFileMetrics {
  file_path : string;
  language : string;
  security : SecurityMetrics
}.

(** Modelled from the spec: [FileMetrics.security_issues], read by
    [analyze_project], is declared in [codelyzer.metrics]; the spec has the
    aggregator iterate every file's vulnerability sequence. *)
Definition security_issues (fm : FileMetrics) : list Vulnerability :=
  vulnerabilities (security fm).

Definition fresh_file (path lang : string) : FileMetrics :=
  MkFileMetrics path lang (MkSecurityMetrics [] 100).

Record ProjectSecurityMetrics : Type := MkProjectSecurityMetrics {
  vulnerability_types : gmap string Z
}.

Record ProjectMetrics : Type := MkProjectMetrics {
  file_metrics : list FileMetrics;
  project_security : ProjectSecurityMetrics
}.

Definition score (fm : FileMetrics) : Z := security_score (security fm).
Definition vulns (fm : FileMetrics) : list Vulnerability :=
  vulnerabilities (security fm).

(** ** Location resolver *)

(** [content[:position]]: a negative bound counts from the end. *)
Definition slice_to (content : list ascii) (p : Z) : list ascii :=
  if p <? 0 then firstn (length content - Z.to_nat (- p)) content
  else firstn (Z.to_nat p) content.

(** [str.split('\n')]. *)
Fixpoint split_nl (s : list ascii) : list (list ascii) :=
  match s with
  | [] => [[]]
  | c :: s' =>
      if Chars.eqb c Chars.newline then [] :: split_nl s'
      else
        match split_nl s' with
        | l :: ls => (c :: l) :: ls
        | [] => [[c]]
        end
  end.

Definition _get_line_number (content : list ascii) (p : Z) : Location :=
  let lines := split_nl (slice_to content p) in
  let line := Z.of_nat (length lines) in
  let column := Z.of_nat (length (List.last lines [])) + 1 in
  MkLocation line column p.

(** ** Score accumulator *)

Definition _level_to_severity (level : SecurityLevel) : string :=
  match level with
  | CRITICAL => "critical"
  | HIGH_RISK => "high"
  | MEDIUM_RISK => "medium"
  | LOW_RISK => "low"
  | OTHER_LEVEL => "info"
  end.

(** The [if]/[elif] chain of [_add_vulnerability]: the score after the
    in-place subtraction, before the clamp. *)
Definition deduct (s : Z) (level : SecurityLevel) : Z :=
  if SecurityLevel_eqb level CRITICAL then s - 25
  else if SecurityLevel_eqb level HIGH_RISK then s - 15
  else if SecurityLevel_eqb level MEDIUM_RISK then s - 5
  else if SecurityLevel_eqb level LOW_RISK then s - 1
  else s.

(** [max(0.0, score)] after the subtraction. *)
Definition adjust_score (s : Z) (level : SecurityLevel) : Z :=
  Z.max 0 (deduct s level).

Definition _add_vulnerability (fm : FileMetrics) (vuln_type message : string)
    (location : Location) (level : SecurityLevel) : FileMetrics :=
  let vulnerability :=
    MkVulnerability (Some vuln_type) message location level
      (_level_to_severity level) in
  let appended := vulnerabilities (security fm) ++ [vulnerability] in
  MkFileMetrics (file_path fm) (language fm)
    (MkSecurityMetrics appended
       (adjust_score (security_score (security fm)) level)).

(** ** Rule patterns

    In the comments [\x22] is the double quote of the source patterns. *)

Definition txt (s : string) : list ascii := list_ascii_of_string s.

Definition dquote : ascii := "034"%char.
Definition squote : ascii := "039"%char.

Module Patterns.
Import Re.

Definition quote : charclass := OneOf [squote; dquote].      (* ['\x22] *)
Definition not_quote : charclass := NoneOf [squote; dquote]. (* [^'\x22] *)
Definition not_rparen : charclass := NoneOf [")"%char].      (* [^\)] *)
Definition not_comma : charclass := NoneOf [","%char].       (* [^,] *)

(** [(?!['\x22]\w+['\x22])] *)
Definition quoted_word : regex := seq [Cls quote; Plus Word; Cls quote].

(** [name\((?!['\x22]\w+['\x22])[^\)]*\)] for a call [name]. *)
Definition shell_call (name : string) : regex :=
  seq [lit (txt name); Lit "("%char; NegLook quoted_word;
       Star not_rparen; Lit ")"%char].

(** [eval\([^\)]*\)] *)
Definition eval_call : regex :=
  seq [lit (txt "eval("); Star not_rparen; Lit ")"%char].

Definition os_command_injection : list regex :=
  [ shell_call "os.system";
    shell_call "subprocess.call";
    shell_call "subprocess.Popen";
    eval_call ].

Definition sql_injection : list regex :=
  [ (* execute\([^,]*\+[^\)]*\) *)
    seq [lit (txt "execute("); Star not_comma; Lit "+"%char;
         Star not_rparen; Lit ")"%char];
    (* execute\([^,]*%[^\)]*\) *)
    seq [lit (txt "execute("); Star not_comma; Lit "%"%char;
         Star not_rparen; Lit ")"%char];
    (* execute\([^,]*f['\x22][^'\x22]*{[^}]*}[^'\x22]*['\x22] *)
    seq [lit (txt "execute("); Star not_comma; Lit "f"%char; Cls quote;
         Star not_quote; Lit "{"%char; Star (NoneOf ["}"%char]);
         Lit "}"%char; Star not_quote; Cls quote];
    (* cursor\.execute\([^,]*\+[^\)]*\) *)
    seq [lit (txt "cursor.execute("); Star not_comma; Lit "+"%char;
         Star not_rparen; Lit ")"%char] ].

(** [eval\([^\)]+\)] *)
Definition js_eval : regex :=
  seq [lit (txt "eval("); Plus not_rparen; Lit ")"%char].

(** [document\.write\([^\)]+\)] *)
Definition document_write : regex :=
  seq [lit (txt "document.write("); Plus not_rparen; Lit ")"%char].

(** [\.innerHTML\s*=\s*[^;]+] *)
Definition innerhtml : regex :=
  seq [lit (txt ".innerHTML"); Star Space; Lit "="%char; Star Space;
       Plus (NoneOf [";"%char])].

Definition insecure_deserialization : list regex :=
  [ lit (txt "pickle.loads(");
    lit (txt "pickle.load(");
    (* yaml\.load\([^,)]*\) *)
    seq [lit (txt "yaml.load("); Star (NoneOf [","%char; ")"%char]);
         Lit ")"%char];
    lit (txt "marshal.loads(") ].

(** [\s*=\s*['\x22][^'\x22]+['\x22]], the tail of every secret pattern. *)
Definition assigned_literal : regex :=
  seq [Star Space; Lit "="%char; Star Space; Cls quote; Plus not_quote;
       Cls quote].

Definition hardcoded_secrets : list regex :=
  [ Seq (lit (txt "password")) assigned_literal;
    (* api[_]?key... *)
    seq [lit (txt "api"); Opt (OneOf ["_"%char]); lit (txt "key");
         assigned_literal];
    Seq (lit (txt "secret")) assigned_literal;
    Seq (lit (txt "token")) assigned_literal ].

End Patterns.

(** ** File scanner *)

(** [needle in haystack] for strings. *)
Fixpoint starts_with (needle s : list ascii) : bool :=
  match needle, s with
  | [], _ => true
  | _ :: _, [] => false
  | a :: needle', b :: s' => Chars.eqb a b && starts_with needle' s'
  end.

Fixpoint contains (needle s : list ascii) : bool :=
  starts_with needle s ||
  match s with
  | [] => false
  | _ :: s' => contains needle s'
  end.

(** The decimal text of an integer inside an f-string. *)
Definition show (n : Z) : string := pretty n.

(** One pass of the inner [for match in matches] loop shared by the
    unconditional checks: resolve the location, add the vulnerability. *)
Definition record_match (content : list ascii) (vuln_type prefix : string)
    (level : SecurityLevel) (fm : FileMetrics) (m : Re.rmatch)
    : FileMetrics :=
  let location := _get_line_number content (Z.of_nat (Re.m_start m)) in
  _add_vulnerability fm vuln_type
    (prefix +:+ show (line location)) location level.

(** [for pattern in patterns: for match in re.finditer(pattern, content)]. *)
Definition scan_patterns (ic : bool) (patterns : list Re.regex)
    (content : list ascii)
    (body : FileMetrics -> Re.rmatch -> FileMetrics) (fm : FileMetrics)
    : FileMetrics :=
  fold_left
    (fun fm pattern => fold_left body (Re.finditer ic pattern content) fm)
    patterns fm.

Definition _check_for_os_command_injection (fm : FileMetrics)
    (content : list ascii) : FileMetrics :=
  scan_patterns false Patterns.os_command_injection content
    (record_match content "os_command_injection"
       "Possible command injection at line " HIGH_RISK) fm.

Definition _check_for_sql_injection (fm : FileMetrics)
    (content : list ascii) : FileMetrics :=
  scan_patterns false Patterns.sql_injection content
    (record_match content "sql_injection"
       "Possible SQL injection at line " CRITICAL) fm.

Definition _check_for_eval (fm : FileMetrics) (content : list ascii)
    : FileMetrics :=
  fold_left
    (record_match content "unsafe_eval" "Unsafe eval() usage at line "
       HIGH_RISK)
    (Re.finditer false Patterns.js_eval content) fm.

Definition _check_for_document_write (fm : FileMetrics)
    (content : list ascii) : FileMetrics :=
  fold_left
    (record_match content "document_write"
       "Unsafe document.write() at line " MEDIUM_RISK)
    (Re.finditer false Patterns.document_write content) fm.

Definition _check_for_innerhtml (fm : FileMetrics) (content : list ascii)
    : FileMetrics :=
  fold_left
    (record_match content "innerhtml"
       "Potentially unsafe innerHTML usage at line " MEDIUM_RISK)
    (Re.finditer false Patterns.innerhtml content) fm.

Definition _check_for_insecure_deserialization (fm : FileMetrics)
    (content : list ascii) : FileMetrics :=
  scan_patterns false Patterns.insecure_deserialization content
    (record_match content "insecure_deserialization"
       "Insecure deserialization at line " HIGH_RISK) fm.

(** ["os.environ" in match.group(0) or "process.env" in match.group(0)] *)
Definition looks_like_env (m : Re.rmatch) : bool :=
  contains (txt "os.environ") (Re.m_group0 m)
  || contains (txt "process.env") (Re.m_group0 m).

(** The loop body of [_check_for_hardcoded_secrets], with its [continue]. *)
Definition record_secret (content : list ascii) (fm : FileMetrics)
    (m : Re.rmatch) : FileMetrics :=
  if looks_like_env m then fm
  else
    record_match content "hardcoded_secret"
      "Possible hardcoded secret at line " HIGH_RISK fm m.

Definition _check_for_hardcoded_secrets (fm : FileMetrics)
    (content : list ascii) : FileMetrics :=
  scan_patterns true Patterns.hardcoded_secrets content
    (record_secret content) fm.

Definition _analyze_python_security {Any : Type} (fm : FileMetrics)
    (content : list ascii) (ast_data : Any) : FileMetrics :=
  let fm := _check_for_os_command_injection fm content in
  let fm := _check_for_sql_injection fm content in
  let fm := _check_for_insecure_deserialization fm content in
  _check_for_hardcoded_secrets fm content.

Definition _analyze_js_security {Any : Type} (fm : FileMetrics)
    (content : list ascii) (ast_data : Any) : FileMetrics :=
  let fm := _check_for_eval fm content in
  let fm := _check_for_document_write fm content in
  let fm := _check_for_innerhtml fm content in
  _check_for_hardcoded_secrets fm content.

Definition is_js_language (lang : string) : bool :=
  String.eqb lang "javascript" || String.eqb lang "typescript"
  || String.eqb lang "jsx".

Definition analyze_file {Any : Type} (fm : FileMetrics)
    (file_content : list ascii) (ast_data : Any) : FileMetrics :=
  match file_content with
  | [] => fm
  | _ :: _ =>
      if String.eqb (language fm) "python" then
        _analyze_python_security fm file_content ast_data
      else if is_js_language (language fm) then
        _analyze_js_security fm file_content ast_data
      else fm
  end.

(** ** Project aggregator *)

(** [vuln.get('type', 'unknown')] *)
Definition vuln_type_of (v : Vulnerability) : string :=
  match v_type v with
  | Some t => t
  | None => "unknown"
  end.

(** The body of the inner loop: create the counter when the key is new,
    then increment it. *)
Definition tally (types : gmap string Z) (v : Vulnerability)
    : gmap string Z :=
  let vuln_type := vuln_type_of v in
  let types :=
    match types !! vuln_type with
    | None => <[vuln_type := 0]> types
    | Some _ => types
    end in
  <[vuln_type := (types !!! vuln_type) + 1]> types.

(** [analyze_project] starts from an empty dict and stores the result in
    [project_metrics.security.vulnerability_types]. *)
Definition analyze_project (pm : ProjectMetrics) : ProjectMetrics :=
  let vulnerability_types :=
    fold_left
      (fun types fm => fold_left tally (security_issues fm) types)
      (file_metrics pm) (∅ : gmap string Z) in
  MkProjectMetrics (file_metrics pm)
    (MkProjectSecurityMetrics vulnerability_types).

(** ** Reporting ([src/codelyzer/console.py])

    [display_security_issues] counts the issues of all files by type in a
    [Counter] and prints one table row per type; the rendering is left out,
    the values it renders are modelled. *)

(** [security_counts[issue_type] += 1] on a [Counter]: a missing key reads
    as 0. *)
Definition counter_incr (counts : gmap string Z) (key : string)
    : gmap string Z :=
  <[key := default 0 (counts !! key) + 1]> counts.

(** The loop over [metrics.file_metrics] and [file_metrics.security_issues]
    that fills [security_counts]. *)
Definition security_counts (metrics : ProjectMetrics) : gmap string Z :=
  fold_left
    (fun counts fm =>
       fold_left (fun counts issue => counter_incr counts (vuln_type_of issue))
         (security_issues fm) counts)
    (file_metrics metrics) (∅ : gmap string Z).

(** [sum(len(f.security_issues) for f in metrics.file_metrics)], the
    number logged by [display_security_issues]. *)
Definition security_issues_total (metrics : ProjectMetrics) : Z :=
  fold_right Z.add 0
    (map (fun f => Z.of_nat (length (security_issues f)))
       (file_metrics metrics)).

(** [any(f.security_issues for f in metrics.file_metrics)], the guard of
    the table. *)
Definition has_security_issues (metrics : ProjectMetrics) : bool :=
  existsb
    (fun f => match security_issues f with [] => false | _ :: _ => true end)
    (file_metrics metrics).

(** [sum(vulnerability_types.values())] and [len(vulnerability_types)], the
    two numbers [analyze_project] logs. *)
Definition sum_values (types : gmap string Z) : Z :=
  map_fold (fun _ count acc => count + acc) 0 types.

(** ** Definitions used by the statements *)

Definition penalty (level : SecurityLevel) : Z :=
  match level with
  | CRITICAL => 25
  | HIGH_RISK => 15
  | MEDIUM_RISK => 5
  | LOW_RISK => 1
  | OTHER_LEVEL => 0
  end.

Definition total_penalty (levels : list SecurityLevel) : Z :=
  fold_right Z.add 0 (map penalty levels).

(** The score after a sequence of [_add_vulnerability] calls. *)
Definition apply_levels (s : Z) (levels : list SecurityLevel) : Z :=
  fold_left adjust_score levels s.

(** The record after the vulnerabilities [vs] have been added one by one. *)
Definition add_all (fm : FileMetrics) (vs : list Vulnerability)
    : FileMetrics :=
  MkFileMetrics (file_path fm) (language fm)
    (MkSecurityMetrics (vulns fm ++ vs)
       (apply_levels (score fm) (map v_level vs))).

(** The vulnerability [record_match] builds for a match. *)
Definition found (content : list ascii) (vuln_type prefix : string)
    (level : SecurityLevel) (m : Re.rmatch) : Vulnerability :=
  let location := _get_line_number content (Z.of_nat (Re.m_start m)) in
  MkVulnerability (Some vuln_type) (prefix +:+ show (line location))
    location level (_level_to_severity level).

Definition secret_found (content : list ascii) : Re.rmatch -> Vulnerability :=
  found content "hardcoded_secret" "Possible hardcoded secret at line "
    HIGH_RISK.

Definition kept (m : Re.rmatch) : bool := negb (looks_like_env m).

(** All matches of a pattern list, in the order the loops visit them. *)
Definition all_matches (ic : bool) (patterns : list Re.regex)
    (content : list ascii) : list Re.rmatch :=
  concat (map (fun p => Re.finditer ic p content) patterns).

Definition python_findings (content : list ascii) : list Vulnerability :=
  map (found content "os_command_injection"
         "Possible command injection at line " HIGH_RISK)
      (all_matches false Patterns.os_command_injection content)
  ++ map (found content "sql_injection" "Possible SQL injection at line "
            CRITICAL)
       (all_matches false Patterns.sql_injection content)
  ++ map (found content "insecure_deserialization"
            "Insecure deserialization at line " HIGH_RISK)
       (all_matches false Patterns.insecure_deserialization content)
  ++ map (secret_found content)
       (List.filter kept (all_matches true Patterns.hardcoded_secrets content)).

Definition js_findings (content : list ascii) : list Vulnerability :=
  map (found content "unsafe_eval" "Unsafe eval() usage at line " HIGH_RISK)
      (Re.finditer false Patterns.js_eval content)
  ++ map (found content "document_write" "Unsafe document.write() at line "
            MEDIUM_RISK)
       (Re.finditer false Patterns.document_write content)
  ++ map (found content "innerhtml"
            "Potentially unsafe innerHTML usage at line " MEDIUM_RISK)
       (Re.finditer false Patterns.innerhtml content)
  ++ map (secret_found content)
       (List.filter kept (all_matches true Patterns.hardcoded_secrets content)).

Definition findings (lang : string) (content : list ascii)
    : list Vulnerability :=
  match content with
  | [] => []
  | _ :: _ =>
      if String.eqb lang "python" then python_findings content
      else if is_js_language lang then js_findings content
      else []
  end.

Definition nl : list ascii := [Chars.newline].
Definition quoted (s : string) : list ascii := [dquote] ++ txt s ++ [dquote].

(** Line 1: password = (quoted) s3cr3t; line 2: os.system(user_input). *)
Definition example_two_findings : list ascii :=
  txt "password = " ++ quoted "s3cr3t" ++ nl ++ txt "os.system(user_input)".

(** Five statements [execute(a+b),], one per line. *)
Definition example_five_critical : list ascii :=
  concat (repeat (txt "execute(a+b)," ++ nl) 5).

(** A vulnerability as [_add_vulnerability] builds it: the type is present
    and the severity label is the one of the level. *)
Definition well_formed (v : Vulnerability) : Prop :=
  exists t, v_type v = Some t /\ v_severity v = _level_to_severity (v_level v).

(** The number of vulnerabilities of type [t] in a sequence, the type being
    read as [analyze_project] reads it. *)
Definition count_type (t : string) (vs : list Vulnerability) : Z :=
  Z.of_nat (length (List.filter (fun v => String.eqb (vuln_type_of v) t) vs)).

(** The same, summed over the files of a project. *)
Definition project_count (t : string) (fms : list FileMetrics) : Z :=
  fold_right Z.add 0 (map (fun fm => count_type t (security_issues fm)) fms).

(** What a dict holds for a key that occurred [n] times on top of [old]. *)
Definition bumped (old : option Z) (n : Z) : option Z :=
  if n =? 0 then old else Some (default 0 old + n).

(** The three calls the shell rules look for. *)
Definition shell_names : list string :=
  ["os.system"; "subprocess.call"; "subprocess.Popen"].

Definition is_quote (c : ascii) : Prop := c = squote \/ c = dquote.

Definition all_word (w : list ascii) : Prop :=
  Forall (fun c => Chars.is_word c = true) w.

(** Text that begins with a quote, one or more word characters and a
    quote: what the lookahead of the shell rules rejects. *)
Definition starts_with_quoted_word (s : list ascii) : Prop :=
  exists q1 w q2 tail,
    s = q1 :: w ++ q2 :: tail
    /\ is_quote q1 /\ is_quote q2 /\ w <> [] /\ all_word w.

(** At offset [off] the content reads [name(body)] for one of the shell
    calls, where the text after the opening parenthesis does not begin with
    a quoted word and [body] runs up to the next closing parenthesis. *)
Definition at_shell_call (content : list ascii) (off : nat) : Prop :=
  exists name body tail,
    In name shell_names
    /\ skipn off content = txt name ++ "("%char :: body ++ ")"%char :: tail
    /\ ~ In ")"%char body
    /\ ~ starts_with_quoted_word (body ++ ")"%char :: tail).

(** At offset [off] the content reads [eval(body)]. *)
Definition at_eval_call (content : list ascii) (off : nat) : Prop :=
  exists body tail,
    skipn off content = txt "eval(" ++ body ++ ")"%char :: tail
    /\ ~ In ")"%char body.

(** A quoted string literal without escapes. *)
Definition quoted_literal (arg : list ascii) : Prop :=
  exists q body,
    is_quote q /\ arg = q :: body ++ [q]
    /\ ~ In q body /\ ~ In "\"%char body.

(** The reading of the shell rules under which no call with a string
    literal as its argument is recorded. *)
Definition literal_arguments_unflagged : Prop :=
  forall name arg,
    In name shell_names -> quoted_literal arg ->
    vulns (_check_for_os_command_injection (fresh_file "a.py" "python")
             (txt name ++ "("%char :: arg ++ [")"%char])) = [].

(** [os.system] of (quoted) [ls], then [os.system(cmd)]. *)
Definition example_two_calls : list ascii :=
  txt "os.system(" ++ quoted "ls" ++ txt "); os.system(cmd)".

Definition example_flagged_call : Vulnerability :=
  MkVulnerability (Some "os_command_injection")
    "Possible command injection at line 1" (MkLocation 1 18 17)
    HIGH_RISK "high".

(** Two lines [ab] and [cd], then [eval(x)] on the third. *)
Definition example_three_lines : list ascii :=
  txt "ab" ++ nl ++ txt "cd" ++ nl ++ txt "eval(x)".

(** A continuation of the matcher that only returns suffixes of its
    input. *)
Definition suffix_closed (k : list ascii -> option (list ascii)) : Prop :=
  forall s out, k s = Some out -> exists pre, s = pre ++ out.

(** [needle] occurs in [s]. *)
Definition has_substring (needle s : list ascii) : Prop :=
  exists pre post, s = pre ++ needle ++ post.

(** The text contains one of the two environment lookup idioms. *)
Definition env_idiom (text : list ascii) : Prop :=
  has_substring (txt "os.environ") text
  \/ has_substring (txt "process.env") text.

(** [password = ] followed by a quoted text, as a line of content. *)
Definition password_assignment (literal : string) : list ascii :=
  txt "password = " ++ quoted literal.

Definition example_secret_finding : Vulnerability :=
  MkVulnerability (Some "hardcoded_secret")
    "Possible hardcoded secret at line 1" (MkLocation 1 1 0)
    HIGH_RISK "high".




Definition all_space (ws : list ascii) : Prop :=
  Forall (fun c => Chars.is_space c = true) ws.

Definition quote_free (w : list ascii) : Prop :=
  Forall (fun c => c <> squote /\ c <> dquote) w.



(** The patterns of every rule other than the secret rules. *)
Definition other_patterns : list Re.regex :=
  Patterns.os_command_injection ++ Patterns.sql_injection
  ++ Patterns.insecure_deserialization
  ++ [Patterns.js_eval; Patterns.document_write; Patterns.innerhtml].

(** A credential name in upper case or mixed case, assigned (quoted) [x]. *)
Definition example_upper_password : list ascii := txt "PASSWORD = " ++ quoted "x".

(** A vulnerability counts for the type [t] when its ['type'] field holds
    [t]; one without that field counts for [unknown].  Read off the field
    itself. *)
Definition recorded_as (t : string) (v : Vulnerability) : bool :=
  match v_type v with
  | Some t' => String.eqb t' t
  | None => String.eqb "unknown" t
  end.

(** The number of vulnerabilities recorded as [t], summed over the
    vulnerability sequences of the files. *)
Definition occurrences (t : string) (fms : list FileMetrics) : Z :=
  fold_right Z.add 0
    (map (fun fm =>
            Z.of_nat
              (length (List.filter (recorded_as t)
                         (vulnerabilities (security fm)))))
       fms).

(** A vulnerability dict with the given type field and nothing else of
    interest. *)
Definition issue (type : option string) : Vulnerability :=
  MkVulnerability type "" (MkLocation 1 1 0) MEDIUM_RISK "medium".

(** Two files: one with a [sql_injection] and an [xss] issue, one with a
    [sql_injection] issue and an issue without type; the project record
    still holds a mapping from an earlier run. *)
Definition example_mixed_project : ProjectMetrics :=
  MkProjectMetrics
    [ MkFileMetrics "a.py" "python"
        (MkSecurityMetrics
           [issue (Some "sql_injection"); issue (Some "xss")] 70);
      MkFileMetrics "b.js" "javascript"
        (MkSecurityMetrics [issue (Some "sql_injection"); issue None] 90) ]
    (MkProjectSecurityMetrics {["sql_injection" := 40]}).

Definition example_mixed_types : gmap string Z :=
  <["sql_injection" := 2]> (<["xss" := 1]> {["unknown" := 1]}).

(** ** Further definitions used by the statements *)

(** The findings [analyze_file] adds for a language and a content: the
    vulnerabilities of a scan that starts from a fresh record. *)
Definition scan (lang : string) (content : list ascii) : list Vulnerability :=
  vulns (analyze_file (fresh_file "" lang) content tt).

(** The type identifiers and levels of the Python rules and of the
    JavaScript rules. *)
Definition python_rules : list (string * SecurityLevel) :=
  [ ("os_command_injection", HIGH_RISK); ("sql_injection", CRITICAL);
    ("insecure_deserialization", HIGH_RISK); ("hardcoded_secret", HIGH_RISK) ].

Definition js_rules : list (string * SecurityLevel) :=
  [ ("unsafe_eval", HIGH_RISK); ("document_write", MEDIUM_RISK);
    ("innerhtml", MEDIUM_RISK); ("hardcoded_secret", HIGH_RISK) ].

Definition rules_of (lang : string) : list (string * SecurityLevel) :=
  if String.eqb lang "python" then python_rules
  else if is_js_language lang then js_rules
  else [].

(** All vulnerabilities of a project, file after file. *)
Definition all_issues (fms : list FileMetrics) : list Vulnerability :=
  concat (map security_issues fms).

(** The mapping [analyze_project] stores. *)
Definition project_types (pm : ProjectMetrics) : gmap string Z :=
  vulnerability_types (project_security (analyze_project pm)).

(** The seven type identifiers the rules use. *)
Definition rule_types : list string :=
  [ "os_command_injection"; "sql_injection"; "insecure_deserialization";
    "hardcoded_secret"; "unsafe_eval"; "document_write"; "innerhtml" ].

(** The records obtained by scanning each (path, language, content) into a
    fresh record. *)
Definition scan_all (inputs : list (string * string * list ascii))
    : list FileMetrics :=
  map (fun i => analyze_file (fresh_file i.1.1 i.1.2) i.2 tt) inputs.

Definition example_project : ProjectMetrics :=
  MkProjectMetrics
    (scan_all [("a.py"%string, "python"%string, example_two_findings);
               ("b.py"%string, "python"%string, example_five_critical)])
    (MkProjectSecurityMetrics ∅).

(** The offset at which line number [k + 1] starts: the character after
    the [k]-th newline (0 when the content has fewer lines). *)
Fixpoint line_start (content : list ascii) (k : nat) : nat :=
  match k with
  | O => O
  | S k' =>
      match content with
      | [] => O
      | c :: rest =>
          S (if Chars.eqb c Chars.newline then line_start rest k'
             else line_start rest (S k'))
      end
  end.

(** Four lines: [a], [bc], an empty line and [def]. *)
Definition example_four_lines : list ascii :=
  txt "a" ++ nl ++ txt "bc" ++ nl ++ nl ++ txt "def".

(** Twenty statements [document.write(x);]. *)
Definition example_many_writes : list ascii :=
  concat (repeat (txt "document.write(x);") 20).

(** Every rule pattern with the flag it is searched with. *)
Definition all_rule_patterns : list (bool * Re.regex) :=
  map (pair false) other_patterns ++ map (pair true) Patterns.hardcoded_secrets.

(** The pattern cannot match without consuming the literal character
    [c]. *)
Fixpoint must_consume (c : ascii) (r : Re.regex) : bool :=
  match r with
  | Re.Lit c' => Chars.eqb c c'
  | Re.Seq r1 r2 => must_consume c r1 || must_consume c r2
  | _ => false
  end.

(** A character that only matches itself, with or without
    [re.IGNORECASE]. *)
Definition caseless (c : ascii) : Prop :=
  forall ic x, Re.lit_matches ic c x = true -> x = c.

(** The second match starts after the end of the first, and at least one
    character further. *)
Definition match_before (a b : Re.rmatch) : Prop :=
  (Re.m_start a + Nat.max 1 (length (Re.m_group0 a)) <= Re.m_start b)%nat.

Definition position_before (a b : Vulnerability) : Prop :=
  position (v_location a) < position (v_location b).

(** Three [eval] calls on one line; the first has no argument. *)
Definition example_three_evals : list ascii :=
  txt "eval(); eval(a); x = eval(b)".

(** At offset [off] the content reads [head] (a call name with its
    opening parenthesis), a non-empty argument without closing parenthesis,
    and a closing parenthesis. *)
Definition at_js_call (head : string) (content : list ascii) (off : nat)
    : Prop :=
  exists body tail,
    skipn off content = txt head ++ body ++ ")"%char :: tail
    /\ body <> [] /\ ~ In ")"%char body.

(** At offset [off] the content reads [.innerHTML], blanks, an equals
    sign, blanks and a non-empty value without semicolon that runs to the
    next semicolon or to the end of the content. *)
Definition at_innerhtml (content : list ascii) (off : nat) : Prop :=
  exists ws1 ws2 value tail,
    skipn off content
    = txt ".innerHTML" ++ ws1 ++ "="%char :: ws2 ++ value ++ tail
    /\ all_space ws1 /\ all_space ws2
    /\ value <> [] /\ ~ In ";"%char value
    /\ (tail = [] \/ exists tail', tail = ";"%char :: tail').

Definition example_innerhtml : list ascii :=
  txt "el.innerHTML = a" ++ nl ++ txt "f(b); g()".

Definition example_innerhtml_finding : Vulnerability :=
  MkVulnerability (Some "innerhtml")
    "Potentially unsafe innerHTML usage at line 1" (MkLocation 1 3 2)
    MEDIUM_RISK "medium".

(** A call [cursor.execute(a + rest]: [a] is the text before the plus
    sign. *)
Definition cursor_execute_concat (a rest : list ascii) : list ascii :=
  txt "cursor.execute(" ++ a ++ "+"%char :: rest.






(** At offset [off] the content reads one of the unpickling or
    unmarshalling calls, or [yaml.load(] with a single argument (no comma
    before the closing parenthesis). *)
Definition at_deserialization (content : list ascii) (off : nat) : Prop :=
  (exists head tail,
      In head ["pickle.loads("; "pickle.load("; "marshal.loads("]%string
      /\ skipn off content = txt head ++ tail)
  \/ (exists args tail,
        skipn off content = txt "yaml.load(" ++ args ++ ")"%char :: tail
        /\ ~ In ","%char args /\ ~ In ")"%char args).

(** At offset [off] the content reads an [execute(] call whose first
    argument (the text before any comma) has a plus sign, a percent sign
    or an f-string with a brace pair. *)
Definition at_sql_injection (content : list ascii) (off : nat) : Prop :=
  (exists head a b tail,
      In head ["execute("; "cursor.execute("]%string
      /\ skipn off content = txt head ++ a ++ "+"%char :: b ++ ")"%char :: tail
      /\ ~ In ","%char a /\ ~ In ")"%char b)
  \/ (exists a b tail,
        skipn off content
        = txt "execute(" ++ a ++ "%"%char :: b ++ ")"%char :: tail
        /\ ~ In ","%char a /\ ~ In ")"%char b)
  \/ (exists a q1 s1 s2 s3 q2 tail,
        skipn off content
        = txt "execute(" ++ a ++ "f"%char :: q1 :: s1 ++ "{"%char :: s2
          ++ "}"%char :: s3 ++ q2 :: tail
        /\ ~ In ","%char a /\ is_quote q1 /\ is_quote q2
        /\ quote_free s1 /\ ~ In "}"%char s2 /\ quote_free s3).

(** A parameterised query: the percent sign of the placeholder comes
    before the comma. *)
Definition example_parameterised : list ascii :=
  txt "cur.execute('SELECT a FROM t WHERE id = %s', (uid,))".

Definition example_parameterised_finding : Vulnerability :=
  MkVulnerability (Some "sql_injection")
    "Possible SQL injection at line 1" (MkLocation 1 5 4) CRITICAL "critical".

Definition example_yaml : list ascii :=
  txt "a = yaml.load(f, Loader=L)" ++ nl ++ txt "b = yaml.load(g)".

Definition example_yaml_finding : Vulnerability :=
  MkVulnerability (Some "insecure_deserialization")
    "Insecure deserialization at line 2" (MkLocation 2 5 31)
    HIGH_RISK "high".

(** All vulnerabilities of the list have type [t]. *)
Definition all_of_type (t : string) (vs : list Vulnerability) : Prop :=
  Forall (fun v => v_type v = Some t) vs.

(** The vulnerability the shell rules record for a call at the start of the
    content. *)
Definition example_call_at_start : Vulnerability :=
  MkVulnerability (Some "os_command_injection")
    "Possible command injection at line 1" (MkLocation 1 1 0)
    HIGH_RISK "high".

(** * Properties *)

(** ** Score arithmetic *)

Lemma deduct_penalty s level : deduct s level = s - penalty level.
Proof. destruct level; unfold deduct; simpl; lia. Qed.

Lemma penalty_nonneg level : 0 <= penalty level.
Proof. destruct level; simpl; lia. Qed.

Lemma total_penalty_nonneg levels : 0 <= total_penalty levels.
Proof.
  induction levels as [|l ls IH]; unfold total_penalty in *; simpl; [lia|].
  pose proof (penalty_nonneg l). lia.
Qed.

Lemma total_penalty_app xs ys :
  total_penalty (xs ++ ys) = total_penalty xs + total_penalty ys.
Proof.
  unfold total_penalty. induction xs as [|x xs IH]; simpl; [lia|].
  rewrite IH. lia.
Qed.

Lemma total_penalty_perm xs ys :
  Permutation xs ys -> total_penalty xs = total_penalty ys.
Proof.
  unfold total_penalty.
  induction 1; simpl; lia.
Qed.

Lemma adjust_score_nonneg s level : 0 <= adjust_score s level.
Proof. unfold adjust_score. lia. Qed.

Lemma adjust_score_le s level : 0 <= s -> adjust_score s level <= s.
Proof.
  intros Hs. unfold adjust_score. rewrite deduct_penalty.
  pose proof (penalty_nonneg level). lia.
Qed.

(** Clamping after every step is the same as clamping once at the end,
    because no penalty is negative. *)
Lemma apply_levels_closed s levels :
  0 <= s -> apply_levels s levels = Z.max 0 (s - total_penalty levels).
Proof.
  unfold apply_levels. revert s.
  induction levels as [|l ls IH]; intros s Hs.
  - unfold total_penalty. simpl. lia.
  - simpl. rewrite IH by apply adjust_score_nonneg.
    unfold adjust_score. rewrite deduct_penalty.
    change (total_penalty (l :: ls)) with (penalty l + total_penalty ls).
    pose proof (penalty_nonneg l). pose proof (total_penalty_nonneg ls). lia.
Qed.

Lemma apply_levels_app s xs ys :
  apply_levels s (xs ++ ys) = apply_levels (apply_levels s xs) ys.
Proof. unfold apply_levels. apply fold_left_app. Qed.

Lemma apply_levels_range s levels :
  0 <= s <= 100 -> 0 <= apply_levels s levels <= 100.
Proof.
  intros Hs. rewrite apply_levels_closed by lia.
  pose proof (total_penalty_nonneg levels). lia.
Qed.

(** ** The scan as a sequence of recorded findings *)

Lemma add_all_nil fm : add_all fm [] = fm.
Proof.
  destruct fm as [p l [vs s]]. unfold add_all, vulns, score. simpl.
  by rewrite app_nil_r.
Qed.

Lemma add_all_app fm vs ws : add_all (add_all fm vs) ws = add_all fm (vs ++ ws).
Proof.
  unfold add_all, vulns, score. simpl.
  by rewrite map_app, apply_levels_app, app_assoc.
Qed.

Lemma record_match_add_all content t prefix level fm m :
  record_match content t prefix level fm m
  = add_all fm [found content t prefix level m].
Proof. reflexivity. Qed.

Lemma fold_record_match content t prefix level ms fm :
  fold_left (record_match content t prefix level) ms fm
  = add_all fm (map (found content t prefix level) ms).
Proof.
  revert fm. induction ms as [|m ms IH]; intros fm; simpl.
  - by rewrite add_all_nil.
  - rewrite IH, record_match_add_all, add_all_app. reflexivity.
Qed.

Lemma fold_record_secret content ms fm :
  fold_left (record_secret content) ms fm
  = add_all fm (map (secret_found content) (List.filter kept ms)).
Proof.
  revert fm. induction ms as [|m ms IH]; intros fm; simpl.
  - by rewrite add_all_nil.
  - rewrite IH. unfold record_secret, kept.
    destruct (looks_like_env m); simpl; [reflexivity|].
    rewrite record_match_add_all, add_all_app. reflexivity.
Qed.

Lemma scan_patterns_fold ic patterns content body fm :
  scan_patterns ic patterns content body fm
  = fold_left body (all_matches ic patterns content) fm.
Proof.
  unfold scan_patterns, all_matches. revert fm.
  induction patterns as [|p ps IH]; intros fm; simpl; [reflexivity|].
  by rewrite fold_left_app, IH.
Qed.

Lemma check_secrets_add_all fm content :
  _check_for_hardcoded_secrets fm content
  = add_all fm
      (map (secret_found content)
         (List.filter kept
            (all_matches true Patterns.hardcoded_secrets content))).
Proof.
  unfold _check_for_hardcoded_secrets.
  by rewrite scan_patterns_fold, fold_record_secret.
Qed.

Lemma check_os_add_all fm content :
  _check_for_os_command_injection fm content
  = add_all fm
      (map (found content "os_command_injection"
              "Possible command injection at line " HIGH_RISK)
         (all_matches false Patterns.os_command_injection content)).
Proof.
  unfold _check_for_os_command_injection.
  by rewrite scan_patterns_fold, fold_record_match.
Qed.

Lemma analyze_python_findings {Any : Type} fm content (a : Any) :
  _analyze_python_security fm content a = add_all fm (python_findings content).
Proof.
  unfold _analyze_python_security, python_findings.
  rewrite check_secrets_add_all, check_os_add_all.
  unfold _check_for_sql_injection, _check_for_insecure_deserialization.
  rewrite !scan_patterns_fold, !fold_record_match, !add_all_app.
  reflexivity.
Qed.

Lemma analyze_js_findings {Any : Type} fm content (a : Any) :
  _analyze_js_security fm content a = add_all fm (js_findings content).
Proof.
  unfold _analyze_js_security, js_findings.
  rewrite check_secrets_add_all.
  unfold _check_for_eval, _check_for_document_write, _check_for_innerhtml.
  rewrite !fold_record_match, !add_all_app.
  reflexivity.
Qed.

(** [analyze_file] adds the findings of the language's rules, in rule
    order, to the record it is given. *)
Lemma analyze_file_findings {Any : Type} fm content (a : Any) :
  analyze_file fm content a = add_all fm (findings (language fm) content).
Proof.
  unfold analyze_file, findings.
  destruct content as [|c content]; [by rewrite add_all_nil|].
  destruct (String.eqb (language fm) "python").
  - apply analyze_python_findings.
  - destruct (is_js_language (language fm)).
    + apply analyze_js_findings.
    + by rewrite add_all_nil.
Qed.

(** Adding one more finding to [add_all] is one call of
    [_add_vulnerability]. *)
Lemma add_all_snoc fm vs t msg loc level :
  add_all fm (vs ++ [MkVulnerability (Some t) msg loc level
                       (_level_to_severity level)])
  = _add_vulnerability (add_all fm vs) t msg loc level.
Proof.
  unfold add_all, _add_vulnerability, vulns, score. simpl.
  rewrite map_app, apply_levels_app, app_assoc. reflexivity.
Qed.

Lemma vulns_add_all_fresh path lang vs :
  vulns (add_all (fresh_file path lang) vs) = vs.
Proof. reflexivity. Qed.

Lemma score_add_all_fresh path lang vs :
  score (add_all (fresh_file path lang) vs)
  = apply_levels 100 (map v_level vs).
Proof. reflexivity. Qed.



Lemma found_well_formed content t prefix level m :
  well_formed (found content t prefix level m).
Proof. exists t. split; reflexivity. Qed.

Lemma Forall_map_found content t prefix level ms :
  Forall well_formed (map (found content t prefix level) ms).
Proof.
  induction ms as [|m ms IH]; simpl; constructor;
    [apply found_well_formed | exact IH].
Qed.

Lemma findings_well_formed lang content :
  Forall well_formed (findings lang content).
Proof.
  unfold findings. destruct content as [|c content]; [constructor|].
  destruct (String.eqb lang "python");
    [|destruct (is_js_language lang); [|constructor]];
    unfold python_findings, js_findings, secret_found;
    repeat (apply Forall_app; split); apply Forall_map_found.
Qed.

(** ** Location resolver *)

Lemma chars_eqb_eq a b : Chars.eqb a b = true <-> a = b.
Proof. unfold Chars.eqb. apply Ascii.eqb_eq. Qed.

Lemma chars_eqb_neq a b : Chars.eqb a b = false <-> a <> b.
Proof. unfold Chars.eqb. apply Ascii.eqb_neq. Qed.

Lemma split_nl_not_nil s : split_nl s <> [].
Proof.
  destruct s as [|c s]; simpl; [discriminate|].
  destruct (Chars.eqb c Chars.newline); [discriminate|].
  destruct (split_nl s); discriminate.
Qed.

(** [split] returns one more piece than there are separators. *)
Lemma split_nl_length s :
  length (split_nl s) = S (count_occ ascii_dec s Chars.newline).
Proof.
  induction s as [|c s IH]; simpl; [reflexivity|].
  destruct (Chars.eqb c Chars.newline) eqn:E.
  - apply chars_eqb_eq in E. subst c.
    destruct (ascii_dec _ _); [|congruence]. simpl. by rewrite IH.
  - apply chars_eqb_neq in E.
    destruct (ascii_dec c Chars.newline); [congruence|].
    destruct (split_nl s); simpl in *; [discriminate | exact IH].
Qed.

(** The last piece is what follows the last separator. *)
Lemma split_nl_last s :
  exists pre,
    s = pre ++ List.last (split_nl s) []
    /\ ~ In Chars.newline (List.last (split_nl s) [])
    /\ (pre = [] \/ exists pre', pre = pre' ++ [Chars.newline]).
Proof.
  induction s as [|c s (pre & Hs & Hfree & Hpre)].
  - exists []. simpl. auto.
  - simpl. destruct (Chars.eqb c Chars.newline) eqn:E.
    + apply chars_eqb_eq in E. subst c.
      pose proof (split_nl_not_nil s) as Hne.
      destruct (split_nl s) as [|l ls] eqn:Hsp; [congruence|].
      change (List.last ([] :: l :: ls) []) with (List.last (l :: ls) ([] : list ascii)).
      exists (Chars.newline :: pre). split; [cbn [app]; f_equal; exact Hs|].
      split; [exact Hfree|]. right.
      destruct Hpre as [-> | (pre' & ->)];
        [by exists [] | by exists (Chars.newline :: pre')].
    + apply chars_eqb_neq in E.
      pose proof (split_nl_not_nil s) as Hne.
      destruct (split_nl s) as [|l ls] eqn:Hsp; [congruence|].
      destruct ls as [|l' ls].
      * (* no separator in [s]: a single piece *)
        simpl in *. subst s.
        assert (Hlen : count_occ ascii_dec (pre ++ l) Chars.newline = 0%nat).
        { pose proof (split_nl_length (pre ++ l)) as Hl.
          rewrite Hsp in Hl. simpl in Hl. lia. }
        clear Hsp. destruct Hpre as [-> | (pre' & ->)].
        -- exists []. simpl. split; [reflexivity|]. split; [|by left].
           intros [Hc | Hin]; [congruence | exact (Hfree Hin)].
        -- exfalso. rewrite !count_occ_app in Hlen. simpl in Hlen.
           destruct (ascii_dec Chars.newline Chars.newline); [lia|congruence].
      * change (List.last ((c :: l) :: l' :: ls) [])
          with (List.last (l :: l' :: ls) ([] : list ascii)).
        destruct Hpre as [-> | (pre' & ->)].
        -- exfalso. simpl in Hs.
           pose proof (split_nl_length s) as Hl. rewrite Hsp in Hl.
           simpl in Hl.
           assert (Hin : In Chars.newline s).
           { apply (count_occ_In ascii_dec). lia. }
           rewrite Hs in Hin. exact (Hfree Hin).
        -- exists (c :: pre' ++ [Chars.newline]).
           split; [cbn [app]; f_equal; exact Hs|]. split; [exact Hfree|].
           right. by exists (c :: pre').
Qed.

Lemma split_nl_free s : ~ In Chars.newline s -> split_nl s = [s].
Proof.
  induction s as [|c s IH]; intros Hfree; simpl; [reflexivity|].
  destruct (Chars.eqb c Chars.newline) eqn:E.
  - apply chars_eqb_eq in E. subst c. exfalso. apply Hfree. by left.
  - rewrite IH; [reflexivity|]. intros Hin. apply Hfree. by right.
Qed.

Lemma split_nl_line l s :
  ~ In Chars.newline l ->
  split_nl (l ++ Chars.newline :: s) = l :: split_nl s.
Proof.
  induction l as [|c l IH]; intros Hfree; simpl.
  - reflexivity.
  - destruct (Chars.eqb c Chars.newline) eqn:E.
    + apply chars_eqb_eq in E. subst c. exfalso. apply Hfree. by left.
    + rewrite IH; [reflexivity|]. intros Hin. apply Hfree. by right.
Qed.

Lemma slice_to_nonneg content p :
  0 <= p -> slice_to content p = firstn (Z.to_nat p) content.
Proof.
  intros Hp. unfold slice_to.
  destruct (p <? 0) eqn:E; [apply Z.ltb_lt in E; lia | reflexivity].
Qed.

(** ** Project aggregator *)

Lemma count_type_nonneg t vs : 0 <= count_type t vs.
Proof. unfold count_type. lia. Qed.

Lemma project_count_nonneg t fms : 0 <= project_count t fms.
Proof.
  unfold project_count. induction fms as [|fm fms IH]; simpl; [lia|].
  pose proof (count_type_nonneg t (security_issues fm)). lia.
Qed.

Lemma count_type_cons t v vs :
  count_type t (v :: vs)
  = (if String.eqb (vuln_type_of v) t then 1 else 0) + count_type t vs.
Proof.
  unfold count_type. simpl.
  destruct (String.eqb (vuln_type_of v) t); simpl; lia.
Qed.

Lemma tally_lookup (types : gmap string Z) v t :
  tally types v !! t
  = bumped (types !! t) (if String.eqb (vuln_type_of v) t then 1 else 0).
Proof.
  unfold tally, bumped.
  destruct (String.eqb (vuln_type_of v) t) eqn:E.
  - apply String.eqb_eq in E. rewrite E. simpl.
    rewrite lookup_insert_eq.
    destruct (types !! t) as [n|] eqn:Ht; simpl.
    + by rewrite (lookup_total_correct _ _ _ Ht).
    + by rewrite lookup_total_insert_eq.
  - apply String.eqb_neq in E. simpl.
    rewrite lookup_insert_ne by exact E.
    destruct (types !! vuln_type_of v);
      [reflexivity | by rewrite lookup_insert_ne].
Qed.

Lemma bumped_bumped old a b :
  0 <= a -> 0 <= b -> bumped (bumped old a) b = bumped old (a + b).
Proof.
  intros Ha Hb. unfold bumped.
  destruct (Z.eqb_spec a 0), (Z.eqb_spec b 0), (Z.eqb_spec (a + b) 0);
    try (exfalso; lia); try reflexivity; subst; simpl; f_equal; lia.
Qed.

Lemma fold_tally_lookup vs (types : gmap string Z) t :
  fold_left tally vs types !! t = bumped (types !! t) (count_type t vs).
Proof.
  revert types. induction vs as [|v vs IH]; intros types; simpl.
  - reflexivity.
  - rewrite IH, tally_lookup, count_type_cons.
    apply bumped_bumped; [destruct (String.eqb _ _); lia|].
    apply count_type_nonneg.
Qed.

Lemma fold_files_lookup fms (types : gmap string Z) t :
  fold_left (fun types fm => fold_left tally (security_issues fm) types)
    fms types !! t
  = bumped (types !! t) (project_count t fms).
Proof.
  revert types. induction fms as [|fm fms IH]; intros types; simpl.
  - reflexivity.
  - rewrite IH, fold_tally_lookup.
    apply bumped_bumped; [apply count_type_nonneg|].
    apply project_count_nonneg.
Qed.

Lemma recorded_as_spec t v :
  recorded_as t v = String.eqb (vuln_type_of v) t.
Proof. unfold recorded_as, vuln_type_of. destruct (v_type v); reflexivity. Qed.

Lemma occurrences_project_count t fms :
  occurrences t fms = project_count t fms.
Proof.
  unfold occurrences, project_count, count_type, security_issues.
  induction fms as [|fm fms IH]; simpl; [reflexivity|].
  rewrite IH. do 3 f_equal.
  induction (vulnerabilities (security fm)) as [|v vs IHv]; simpl;
    [reflexivity|]. by rewrite recorded_as_spec, IHv.
Qed.

(** ** The matcher *)

Section Matcher.
Context (ic : bool).

Implicit Types (k : list ascii -> option (list ascii)) (s : list ascii).

Lemma run_seq r1 r2 k s :
  Re.run ic (Re.Seq r1 r2) k s = Re.run ic r1 (Re.run ic r2 k) s.
Proof. reflexivity. Qed.

Lemma run_Lit_inv c k s out :
  Re.run ic (Re.Lit c) k s = Some out ->
  exists x s', s = x :: s' /\ Re.lit_matches ic c x = true /\ k s' = Some out.
Proof.
  simpl. destruct s as [|x s']; [discriminate|].
  destruct (Re.lit_matches ic c x) eqn:E; [|discriminate].
  intros H. by exists x, s'.
Qed.

Lemma run_NegLook_inv r k s out :
  Re.run ic (Re.NegLook r) k s = Some out ->
  Re.run ic r Some s = None /\ k s = Some out.
Proof.
  simpl. destruct (Re.run ic r Some s); [discriminate|]. by intros H.
Qed.

(** A greedy repetition succeeds as soon as the rest of the pattern
    succeeds somewhere behind a run of matching characters. *)
Lemma star_greedy_here p k s :
  is_Some (k s) -> is_Some (Re.star_greedy p k s).
Proof.
  intros Hk. destruct s as [|x s']; simpl; [exact Hk|].
  destruct (p x); [|exact Hk].
  destruct (Re.star_greedy p k s'); [eauto | exact Hk].
Qed.

Lemma star_greedy_after p k w s :
  Forall (fun x => p x = true) w ->
  is_Some (k s) -> is_Some (Re.star_greedy p k (w ++ s)).
Proof.
  intros Hw Hk. induction Hw as [|x w Hx Hw IH]; simpl.
  - by apply star_greedy_here.
  - rewrite Hx. destruct IH as [out ->]. eauto.
Qed.

(** When the character after the run does not match, the repetition
    stops exactly there. *)
Lemma star_greedy_exact p k w s out :
  Forall (fun x => p x = true) w ->
  match s with [] => True | x :: _ => p x = false end ->
  k s = Some out ->
  Re.star_greedy p k (w ++ s) = Some out.
Proof.
  intros Hw Hs Hk. induction Hw as [|x w Hx Hw IH]; simpl.
  - destruct s as [|y s']; simpl; [exact Hk|]. by rewrite Hs.
  - by rewrite Hx, IH.
Qed.

Lemma star_greedy_suffix p k :
  suffix_closed k -> suffix_closed (Re.star_greedy p k).
Proof.
  intros Hk s. induction s as [|x s' IH]; intros out; simpl.
  - apply Hk.
  - destruct (p x); [|apply Hk].
    destruct (Re.star_greedy p k s') as [o|] eqn:E; [|apply Hk].
    intros [= <-]. destruct (IH o eq_refl) as [pre ->]. by exists (x :: pre).
Qed.

Lemma run_suffix r :
  forall k, suffix_closed k -> suffix_closed (Re.run ic r k).
Proof.
  induction r as [|c|cl|cl|cl|cl|r1 IH1 r2 IH2|r IH]; intros k Hk s out; simpl.
  - apply Hk.
  - destruct s as [|x s']; [discriminate|].
    destruct (Re.lit_matches ic c x); [|discriminate].
    intros H. destruct (Hk _ _ H) as [pre ->]. by exists (x :: pre).
  - destruct s as [|x s']; [discriminate|].
    destruct (Re.in_class ic cl x); [|discriminate].
    intros H. destruct (Hk _ _ H) as [pre ->]. by exists (x :: pre).
  - by apply star_greedy_suffix.
  - destruct s as [|x s']; [discriminate|].
    destruct (Re.in_class ic cl x); [|discriminate].
    intros H. destruct (star_greedy_suffix _ _ Hk _ _ H) as [pre ->].
    by exists (x :: pre).
  - destruct s as [|x s']; [apply Hk|].
    destruct (Re.in_class ic cl x); [|apply Hk].
    destruct (k s') as [o|] eqn:E; [|apply Hk].
    intros [= <-]. destruct (Hk _ _ E) as [pre ->]. by exists (x :: pre).
  - apply IH1. by apply IH2.
  - destruct (Re.run ic r Some s); [discriminate|]. apply Hk.
Qed.

Lemma match_here_suffix r s out :
  Re.match_here ic r s = Some out -> exists pre, s = pre ++ out.
Proof.
  apply run_suffix. intros s' out' [= ->]. by exists [].
Qed.

(** Every match that [finditer] yields is a match of the pattern at its
    start offset, and its text is what the pattern consumed there. *)
Lemma finditer_from_sound r s pos skip m :
  In m (Re.finditer_from ic r s pos skip) ->
  exists i out,
    Re.m_start m = (pos + i)%nat
    /\ (i <= length s)%nat
    /\ Re.match_here ic r (skipn i s) = Some out
    /\ skipn i s = Re.m_group0 m ++ out.
Proof.
  revert pos skip. induction s as [|x s' IH]; intros pos skip.
  - destruct skip as [|skip']; simpl; [|intros []].
    destruct (Re.match_here ic r []) as [out|] eqn:E; [|intros []].
    intros [<- | []]. exists 0%nat, out. simpl.
    destruct (match_here_suffix _ _ _ E) as [pre Hpre].
    destruct pre; [|discriminate]. simpl in Hpre. subst out.
    repeat split; [lia | lia | exact E].
  - destruct skip as [|skip']; simpl.
    + destruct (Re.match_here ic r (x :: s')) as [out|] eqn:E.
      * intros [<- | Hin].
        -- exists 0%nat, out. simpl.
           destruct (match_here_suffix _ _ _ E) as [pre Hpre].
           repeat split; [lia | lia | exact E |].
           rewrite Hpre at 2. f_equal.
           replace (S (length s') - length out)%nat with (length pre).
           ++ rewrite Hpre. by rewrite take_app_length.
           ++ apply (f_equal length) in Hpre. rewrite length_app in Hpre.
              simpl in Hpre. lia.
        -- destruct (IH _ _ Hin) as (i & o & Hst & Hi & Hm & Hg).
           exists (S i), o. simpl. repeat split; [lia | lia | exact Hm | exact Hg].
      * intros Hin.
        destruct (IH _ _ Hin) as (i & o & Hst & Hi & Hm & Hg).
        exists (S i), o. simpl. repeat split; [lia | lia | exact Hm | exact Hg].
    + intros Hin.
      destruct (IH _ _ Hin) as (i & o & Hst & Hi & Hm & Hg).
      exists (S i), o. simpl. repeat split; [lia | lia | exact Hm | exact Hg].
Qed.

Lemma finditer_sound r content m :
  In m (Re.finditer ic r content) ->
  exists out,
    (Re.m_start m <= length content)%nat
    /\ Re.match_here ic r (skipn (Re.m_start m) content) = Some out
    /\ skipn (Re.m_start m) content = Re.m_group0 m ++ out.
Proof.
  intros Hin. destruct (finditer_from_sound _ _ _ _ _ Hin)
    as (i & out & Hst & Hi & Hm & Hg).
  simpl in Hst. subst i. by exists out.
Qed.

(** A pattern that matches at the head of the content gives the first
    match of [finditer]. *)
Lemma finditer_head r content out :
  Re.match_here ic r content = Some out ->
  exists pre ms,
    content = pre ++ out
    /\ Re.finditer ic r content = Re.MkMatch 0 pre :: ms.
Proof.
  intros E. destruct (match_here_suffix _ _ _ E) as [pre Hpre].
  exists pre. unfold Re.finditer.
  assert (Hlen : (length content - length out)%nat = length pre).
  { apply (f_equal length) in Hpre. rewrite length_app in Hpre. lia. }
  destruct content as [|x s']; simpl; rewrite E.
  - destruct pre; [|discriminate]. eexists. split; [exact Hpre|].
    reflexivity.
  - eexists. split; [exact Hpre|].
    change (S (length s')) with (length (x :: s')). rewrite Hlen.
    rewrite Hpre at 1. by rewrite take_app_length.
Qed.

End Matcher.

(** Case-sensitive literal text matches only itself. *)
Lemma run_lit_inv p k s out :
  Re.run false (Re.lit p) k s = Some out ->
  exists s', s = p ++ s' /\ k s' = Some out.
Proof.
  revert s. induction p as [|c p IH]; intros s; simpl.
  - intros H. by exists s.
  - destruct s as [|x s0]; [discriminate|].
    destruct (Chars.eqb c x) eqn:E; [|discriminate].
    apply chars_eqb_eq in E. subst x.
    intros H. destruct (IH _ H) as (s' & -> & Hk). by exists s'.
Qed.

(** ** The OS command injection rules *)

Lemma star_greedy_inv p k s out :
  Re.star_greedy p k s = Some out ->
  exists w s', s = w ++ s' /\ Forall (fun x => p x = true) w /\ k s' = Some out.
Proof.
  revert out. induction s as [|x s IH]; intros out; simpl.
  - intros H. by exists [], [].
  - destruct (p x) eqn:Hx; [|intros H; by exists [], (x :: s)].
    destruct (Re.star_greedy p k s) as [o|] eqn:E.
    + intros [= <-]. destruct (IH o eq_refl) as (w & s' & -> & Hw & Hk).
      exists (x :: w), s'. repeat split; [by constructor | exact Hk].
    + intros H. by exists [], (x :: s).
Qed.

Lemma not_rparen_spec x :
  Re.in_class false Patterns.not_rparen x = true -> x <> ")"%char.
Proof.
  simpl. unfold Re.mem. simpl. rewrite orb_false_r.
  intros H ->. discriminate H.
Qed.

Lemma Forall_not_rparen w :
  Forall (fun x => Re.in_class false Patterns.not_rparen x = true) w ->
  ~ In ")"%char w.
Proof.
  induction 1 as [|x w Hx Hw IH]; [intros []|].
  intros [-> | Hin]; [by apply not_rparen_spec in Hx | exact (IH Hin)].
Qed.

Lemma lit_false_inv c k s out :
  Re.run false (Re.Lit c) k s = Some out ->
  exists s', s = c :: s' /\ k s' = Some out.
Proof.
  intros H. apply run_Lit_inv in H. destruct H as (x & s' & -> & Hx & Hk).
  apply chars_eqb_eq in Hx. subst x. by exists s'.
Qed.

Lemma quote_class_spec q : is_quote q -> Re.in_class false Patterns.quote q = true.
Proof. intros [-> | ->]; reflexivity. Qed.

(** The lookahead body matches every text that begins with a quoted
    word. *)
Lemma quoted_word_complete s :
  starts_with_quoted_word s ->
  is_Some (Re.run false Patterns.quoted_word Some s).
Proof.
  intros (q1 & w & q2 & tail & -> & Hq1 & Hq2 & Hne & Hw).
  destruct w as [|c w]; [congruence|]. inversion Hw as [|? ? Hc Hw']; subst.
  unfold Patterns.quoted_word, Re.seq. rewrite !run_seq.
  cbn [Re.run app]. rewrite (quote_class_spec _ Hq1).
  change (Re.in_class false Re.Word c) with (Chars.is_word c). rewrite Hc.
  apply star_greedy_after; [exact Hw'|].
  cbn [Re.run]. rewrite (quote_class_spec _ Hq2). eauto.
Qed.

Lemma shell_call_inv name s out :
  Re.match_here false (Patterns.shell_call name) s = Some out ->
  exists body,
    s = txt name ++ "("%char :: body ++ ")"%char :: out
    /\ ~ In ")"%char body
    /\ ~ starts_with_quoted_word (body ++ ")"%char :: out).
Proof.
  unfold Re.match_here, Patterns.shell_call, Re.seq. rewrite !run_seq.
  intros H.
  apply run_lit_inv in H. destruct H as (s1 & -> & H).
  apply lit_false_inv in H. destruct H as (s2 & -> & H).
  apply run_NegLook_inv in H. destruct H as [Hlook H].
  apply star_greedy_inv in H. destruct H as (body & s3 & -> & Hbody & H).
  apply lit_false_inv in H. destruct H as (s4 & -> & H).
  simpl in H. injection H as ->.
  exists body. split; [reflexivity|]. split; [by apply Forall_not_rparen|].
  intros Hq. apply quoted_word_complete in Hq.
  rewrite Hlook in Hq. by destruct Hq.
Qed.

Lemma eval_call_inv s out :
  Re.match_here false Patterns.eval_call s = Some out ->
  exists body,
    s = txt "eval(" ++ body ++ ")"%char :: out /\ ~ In ")"%char body.
Proof.
  unfold Re.match_here, Patterns.eval_call, Re.seq. rewrite !run_seq.
  intros H.
  apply run_lit_inv in H. destruct H as (s1 & -> & H).
  apply star_greedy_inv in H. destruct H as (body & s3 & -> & Hbody & H).
  apply lit_false_inv in H. destruct H as (s4 & -> & H).
  simpl in H. injection H as ->.
  exists body. split; [reflexivity | by apply Forall_not_rparen].
Qed.

Lemma in_all_matches ic patterns content m :
  In m (all_matches ic patterns content) ->
  exists p, In p patterns /\ In m (Re.finditer ic p content).
Proof.
  unfold all_matches. intros H. apply in_concat in H.
  destruct H as (ms & Hms & Hm). apply in_map_iff in Hms.
  destruct Hms as (p & <- & Hp). by exists p.
Qed.

Lemma vulns_add_all fm vs : vulns (add_all fm vs) = vulns fm ++ vs.
Proof. reflexivity. Qed.

(** Where the OS command injection rules record a vulnerability. *)
Lemma os_command_injection_sound fm content v :
  In v (vulns (_check_for_os_command_injection fm content)) ->
  In v (vulns fm)
  \/ (v_type v = Some "os_command_injection"
      /\ v_level v = HIGH_RISK
      /\ exists off,
           position (v_location v) = Z.of_nat off
           /\ (at_shell_call content off \/ at_eval_call content off)).
Proof.
  rewrite check_os_add_all, vulns_add_all, in_app_iff.
  intros [Hold | Hnew]; [by left | right].
  apply in_map_iff in Hnew. destruct Hnew as (m & <- & Hm).
  split; [reflexivity|]. split; [reflexivity|].
  exists (Re.m_start m). split; [reflexivity|].
  apply in_all_matches in Hm. destruct Hm as (p & Hp & Hm).
  apply finditer_sound in Hm. destruct Hm as (out & _ & Hmatch & _).
  unfold Patterns.os_command_injection in Hp. simpl in Hp.
  destruct Hp as [<- | [<- | [<- | [<- | []]]]];
    [left | left | left | right].
  1-3: apply shell_call_inv in Hmatch;
    destruct Hmatch as (body & Hs & Hbody & Hlook);
    eexists _, body, out; (split; [|split; [exact Hs | by split]]);
    unfold shell_names; simpl; tauto.
  apply eval_call_inv in Hmatch. destruct Hmatch as (body & Hs & Hbody).
  by exists body, out.
Qed.

(** ** The hardcoded secret rules *)

Lemma starts_with_spec needle s :
  starts_with needle s = true <-> exists post, s = needle ++ post.
Proof.
  revert s. induction needle as [|a needle IH]; intros s; simpl.
  - split; [intros _; by exists s | reflexivity].
  - destruct s as [|b s]; [split; [discriminate | intros [post [=]]]|].
    rewrite andb_true_iff, chars_eqb_eq, IH. split.
    + intros [-> [post ->]]. by exists post.
    + intros [post [= -> ->]]. split; [reflexivity | by exists post].
Qed.

Lemma contains_unfold needle s :
  contains needle s
  = starts_with needle s
    || match s with [] => false | _ :: s' => contains needle s' end.
Proof. destruct s; reflexivity. Qed.

Lemma contains_spec needle s :
  contains needle s = true <-> has_substring needle s.
Proof.
  unfold has_substring. split.
  - induction s as [|x s IH]; rewrite contains_unfold, orb_true_iff.
    + intros [H | H]; [|discriminate].
      apply starts_with_spec in H. destruct H as [post ->]. by exists [], post.
    + intros [H | H].
      * apply starts_with_spec in H. destruct H as [post ->]. by exists [], post.
      * destruct (IH H) as (pre & post & ->). by exists (x :: pre), post.
  - intros (pre & post & ->).
    induction pre as [|x pre IH]; rewrite contains_unfold, orb_true_iff.
    + left. apply starts_with_spec. by exists post.
    + right. exact IH.
Qed.

Lemma looks_like_env_spec m :
  looks_like_env m = true <-> env_idiom (Re.m_group0 m).
Proof.
  unfold looks_like_env, env_idiom.
  by rewrite orb_true_iff, !contains_spec.
Qed.

Lemma kept_spec m : kept m = true <-> ~ env_idiom (Re.m_group0 m).
Proof.
  unfold kept. rewrite <- looks_like_env_spec.
  destruct (looks_like_env m); simpl; split; try congruence; tauto.
Qed.















Lemma location_of_start content :
  _get_line_number content (Z.of_nat 0) = MkLocation 1 1 0.
Proof. reflexivity. Qed.


(** ** Case-sensitive rules *)




Lemma in_other_patterns ic patterns content m :
  (forall p, In p patterns -> In p other_patterns) ->
  In m (all_matches ic patterns content) ->
  exists p, In p other_patterns /\ In m (Re.finditer ic p content).
Proof.
  intros Hsub Hm. apply in_all_matches in Hm.
  destruct Hm as (p & Hp & Hm). exists p. split; [by apply Hsub | exact Hm].
Qed.



(** ** Further facts about the scan *)

Lemma scan_findings lang content : scan lang content = findings lang content.
Proof. unfold scan. by rewrite analyze_file_findings. Qed.

Lemma analyze_file_scan {Any : Type} fm content (a : Any) :
  analyze_file fm content a = add_all fm (scan (language fm) content).
Proof. by rewrite analyze_file_findings, scan_findings. Qed.

Lemma apply_levels_nonempty s l ls :
  apply_levels s (l :: ls) = Z.max 0 (s - total_penalty (l :: ls)).
Proof.
  unfold apply_levels. simpl fold_left.
  change (fold_left adjust_score ls ?x) with (apply_levels x ls).
  rewrite apply_levels_closed by apply adjust_score_nonneg.
  unfold adjust_score. rewrite deduct_penalty.
  change (total_penalty (l :: ls)) with (penalty l + total_penalty ls).
  pose proof (penalty_nonneg l). pose proof (total_penalty_nonneg ls). lia.
Qed.

Lemma in_map_found content t prefix level ms v :
  In v (map (found content t prefix level) ms) ->
  v_type v = Some t /\ v_level v = level
  /\ v_severity v = _level_to_severity level.
Proof.
  intros H. apply in_map_iff in H. by destruct H as (m & <- & _).
Qed.

Lemma findings_rules lang content v :
  In v (findings lang content) ->
  exists t, v_type v = Some t /\ In (t, v_level v) (rules_of lang)
            /\ v_severity v = _level_to_severity (v_level v).
Proof.
  unfold findings, rules_of. destruct content as [|c content]; [intros []|].
  destruct (String.eqb lang "python");
    [|destruct (is_js_language lang); [|intros []]];
    unfold python_findings, js_findings, secret_found;
    rewrite !in_app_iff;
    intros [H | [H | [H | H]]];
    apply in_map_found in H; destruct H as (Ht & Hl & Hs);
    eexists; (split; [exact Ht|]); rewrite Hs, Hl;
    (split; [|reflexivity]); unfold python_rules, js_rules; cbn [In]; tauto.
Qed.

(** ** Further facts about the aggregator *)

Lemma count_type_app t xs ys :
  count_type t (xs ++ ys) = count_type t xs + count_type t ys.
Proof.
  unfold count_type. rewrite List.filter_app, length_app. lia.
Qed.

Lemma project_count_all_issues t fms :
  project_count t fms = count_type t (all_issues fms).
Proof.
  unfold project_count, all_issues.
  induction fms as [|fm fms IH]; simpl; [reflexivity|].
  by rewrite count_type_app, IH.
Qed.

Lemma project_types_lookup pm t :
  project_types pm !! t
  = (if count_type t (all_issues (file_metrics pm)) =? 0 then None
     else Some (count_type t (all_issues (file_metrics pm)))).
Proof.
  unfold project_types, analyze_project. simpl.
  rewrite fold_files_lookup, project_count_all_issues.
  unfold bumped. rewrite lookup_empty.
  destruct (_ =? 0); reflexivity.
Qed.

Lemma count_type_perm t xs ys :
  Permutation xs ys -> count_type t xs = count_type t ys.
Proof.
  intros H. unfold count_type. f_equal.
  induction H; simpl; try lia;
    repeat (destruct (String.eqb _ t); simpl); lia.
Qed.

Lemma count_type_zero t vs :
  count_type t vs = 0 <-> forall v, In v vs -> vuln_type_of v <> t.
Proof.
  induction vs as [|v vs IH]; [by split|].
  rewrite count_type_cons. pose proof (count_type_nonneg t vs) as Hnn.
  destruct (String.eqb (vuln_type_of v) t) eqn:E.
  - apply String.eqb_eq in E. split; [lia|].
    intros H. exfalso. apply (H v); [by left | exact E].
  - apply String.eqb_neq in E. rewrite Z.add_0_l, IH. split.
    + intros H v' [<- | Hin]; [exact E | by apply H].
    + intros H v' Hin. apply H. by right.
Qed.

Lemma sum_values_step (types : gmap string Z) key old :
  types !! key = old ->
  sum_values (<[key := default 0 old + 1]> types) = sum_values types + 1.
Proof.
  intros Hold. unfold sum_values.
  assert (Hcomm : forall (m : gmap string Z) (j1 j2 : string) (z1 z2 y : Z),
             j1 <> j2 -> m !! j1 = Some z1 -> m !! j2 = Some z2 ->
             z1 + (z2 + y) = z2 + (z1 + y)) by (intros; lia).
  destruct old as [n|]; simpl.
  - rewrite <- insert_delete_eq.
    rewrite map_fold_insert_L;
      [|apply Hcomm | apply lookup_delete_eq].
    rewrite (map_fold_delete_L _ _ key n types); [lia | apply Hcomm | exact Hold].
  - rewrite map_fold_insert_L; [lia | apply Hcomm | exact Hold].
Qed.

Lemma tally_counter_incr types v :
  tally types v = counter_incr types (vuln_type_of v).
Proof.
  unfold tally, counter_incr.
  destruct (types !! vuln_type_of v) as [n|] eqn:E; simpl.
  - by rewrite (lookup_total_correct _ _ _ E).
  - by rewrite lookup_total_insert_eq, insert_insert_eq.
Qed.

Lemma sum_values_tally types v :
  sum_values (tally types v) = sum_values types + 1.
Proof.
  rewrite tally_counter_incr. unfold counter_incr. by apply sum_values_step.
Qed.

Lemma sum_values_fold_tally vs types :
  sum_values (fold_left tally vs types)
  = sum_values types + Z.of_nat (length vs).
Proof.
  revert types. induction vs as [|v vs IH]; intros types; simpl fold_left.
  - simpl. lia.
  - rewrite IH, sum_values_tally. simpl length. lia.
Qed.

Lemma sum_values_fold_files fms types :
  sum_values
    (fold_left (fun types fm => fold_left tally (security_issues fm) types)
       fms types)
  = sum_values types
    + fold_right Z.add 0
        (map (fun f => Z.of_nat (length (security_issues f))) fms).
Proof.
  revert types. induction fms as [|fm fms IH]; intros types; simpl.
  - lia.
  - rewrite IH, sum_values_fold_tally. lia.
Qed.

Lemma counter_fold_tally vs types :
  fold_left (fun counts issue => counter_incr counts (vuln_type_of issue))
    vs types
  = fold_left tally vs types.
Proof.
  revert types. induction vs as [|v vs IH]; intros types; simpl;
    [reflexivity|]. by rewrite IH, tally_counter_incr.
Qed.

Lemma security_counts_types pm : security_counts pm = project_types pm.
Proof.
  unfold security_counts, project_types, analyze_project. simpl.
  generalize (∅ : gmap string Z).
  induction (file_metrics pm) as [|fm fms IH]; intros types; simpl;
    [reflexivity|]. by rewrite counter_fold_tally, IH.
Qed.

Lemma has_security_issues_spec pm :
  has_security_issues pm = true <-> all_issues (file_metrics pm) <> [].
Proof.
  unfold has_security_issues, all_issues.
  induction (file_metrics pm) as [|fm fms IH]; simpl; [by split|].
  rewrite orb_true_iff, IH.
  destruct (security_issues fm) as [|v vs]; simpl.
  - split; [intros [H | H]; [discriminate | exact H] | by right].
  - split; [discriminate | by left].
Qed.

Lemma type_occurs_dec t vs :
  (exists v, In v vs /\ vuln_type_of v = t)
  \/ (forall v, In v vs -> vuln_type_of v <> t).
Proof.
  induction vs as [|v vs [(v' & Hin & Hty) | IH]].
  - right. intros v [].
  - left. exists v'. split; [by right | exact Hty].
  - destruct (string_dec (vuln_type_of v) t) as [E | E].
    + left. exists v. split; [by left | exact E].
    + right. intros v' [<- | Hin]; [exact E | by apply IH].
Qed.

Lemma rules_of_types lang t level :
  In (t, level) (rules_of lang) -> In t rule_types.
Proof.
  unfold rules_of, python_rules, js_rules, rule_types.
  destruct (String.eqb lang "python");
    [|destruct (is_js_language lang); [|intros []]];
    cbn [In]; intros H;
    repeat (destruct H as [[= <- <-] | H]; [tauto|]); destruct H.
Qed.

Lemma scan_all_issue inputs v :
  In v (all_issues (scan_all inputs)) ->
  exists t, v_type v = Some t /\ In t rule_types.
Proof.
  unfold all_issues, scan_all. intros H. apply in_concat in H.
  destruct H as (vs & Hvs & Hv). apply in_map_iff in Hvs.
  destruct Hvs as (fm & <- & Hfm). apply in_map_iff in Hfm.
  destruct Hfm as (i & <- & _).
  unfold security_issues in Hv. fold (vulns (analyze_file (fresh_file i.1.1 i.1.2) i.2 tt)) in Hv.
  rewrite analyze_file_findings, vulns_add_all_fresh in Hv.
  apply findings_rules in Hv. destruct Hv as (t & Ht & Hr & _).
  exists t. split; [exact Ht | by eapply rules_of_types].
Qed.

Lemma issues_total_length fms :
  fold_right Z.add 0
    (map (fun f => Z.of_nat (length (security_issues f))) fms)
  = Z.of_nat (length (all_issues fms)).
Proof.
  unfold all_issues. induction fms as [|fm fms IH]; simpl; [reflexivity|].
  rewrite length_app, Nat2Z.inj_add, IH. reflexivity.
Qed.

(** ** Further facts about locations *)

Lemma count_nl_snoc s :
  count_occ ascii_dec (s ++ [Chars.newline]) Chars.newline
  = S (count_occ ascii_dec s Chars.newline).
Proof.
  rewrite count_occ_app. simpl.
  destruct (ascii_dec Chars.newline Chars.newline); [lia | congruence].
Qed.

Lemma count_nl_free s :
  ~ In Chars.newline s -> count_occ ascii_dec s Chars.newline = 0%nat.
Proof. apply count_occ_not_In. Qed.

Lemma line_start_0 s : line_start s 0 = 0%nat.
Proof. destruct s; reflexivity. Qed.

(** A prefix that is empty or ends with a newline ends where the next line
    starts. *)
Lemma line_start_prefix pre rest :
  pre = [] \/ (exists pre', pre = pre' ++ [Chars.newline]) ->
  line_start (pre ++ rest) (count_occ ascii_dec pre Chars.newline)
  = length pre.
Proof.
  induction pre as [|c pre IH]; intros Hpre; [apply line_start_0|].
  destruct Hpre as [[=] | (pre' & Hpre)].
  assert (Htail : pre = [] \/ exists pre'', pre = pre'' ++ [Chars.newline]).
  { destruct pre' as [|c' pre'']; simpl in Hpre; injection Hpre as -> ->;
      [by left | right; by exists pre'']. }
  cbn [app length count_occ].
  destruct (ascii_dec c Chars.newline) as [-> | Hc].
  - cbn [line_start]. replace (Chars.eqb Chars.newline Chars.newline) with true
      by (symmetry; by apply chars_eqb_eq).
    by rewrite IH.
  - destruct Htail as [-> | (pre'' & ->)].
    + destruct pre' as [|c' [|? ?]]; simpl in Hpre; try discriminate Hpre.
      injection Hpre as ->. congruence.
    + rewrite count_nl_snoc. cbn [line_start].
      replace (Chars.eqb c Chars.newline) with false
        by (symmetry; by apply chars_eqb_neq).
      rewrite <- count_nl_snoc, IH; [reflexivity|]. right. by exists pre''.
Qed.

Lemma slice_to_neg content p :
  p < 0 ->
  slice_to content p
  = firstn (Z.to_nat (Z.max 0 (Z.of_nat (length content) + p))) content.
Proof.
  intros Hp. unfold slice_to.
  destruct (p <? 0) eqn:E; [|apply Z.ltb_ge in E; lia].
  f_equal. lia.
Qed.

Lemma split_nl_app_length a b :
  (length (split_nl a) <= length (split_nl (a ++ b)))%nat.
Proof.
  rewrite !split_nl_length, count_occ_app. lia.
Qed.

Lemma count_nl_firstn n s :
  (count_occ ascii_dec (firstn n s) Chars.newline
   <= count_occ ascii_dec s Chars.newline)%nat.
Proof.
  pose proof (f_equal (fun l => count_occ ascii_dec l Chars.newline)
                (firstn_skipn n s)) as H.
  simpl in H. rewrite count_occ_app in H. lia.
Qed.

Lemma rules_of_penalty lang t level :
  In (t, level) (rules_of lang) -> 5 <= penalty level <= 25.
Proof.
  unfold rules_of, python_rules, js_rules.
  destruct (String.eqb lang "python");
    [|destruct (is_js_language lang); [|intros []]];
    cbn [In]; intros H;
    repeat (destruct H as [[= <- <-] | H]; [simpl; lia|]); destruct H.
Qed.

Lemma total_penalty_bounds vs :
  (forall v, In v vs -> 5 <= penalty (v_level v) <= 25) ->
  5 * Z.of_nat (length vs) <= total_penalty (map v_level vs)
  <= 25 * Z.of_nat (length vs).
Proof.
  induction vs as [|v vs IH]; intros Hall.
  - unfold total_penalty. simpl. lia.
  - change (total_penalty (map v_level (v :: vs)))
      with (penalty (v_level v) + total_penalty (map v_level vs)).
    pose proof (Hall v (or_introl eq_refl)).
    assert (5 * Z.of_nat (length vs)
            <= total_penalty (map v_level vs) <= 25 * Z.of_nat (length vs))
      by (apply IH; intros v' Hv'; apply Hall; by right).
    simpl length. lia.
Qed.

(** ** Where findings come from *)

Lemma in_map_found_origin content t prefix level ms v :
  In v (map (found content t prefix level) ms) ->
  exists m, In m ms /\ v = found content t prefix level m.
Proof.
  intros H. apply in_map_iff in H. destruct H as (m & <- & Hm). by exists m.
Qed.

(** Every finding is built by [found] from a match of a rule pattern. *)
Lemma findings_origin lang content v :
  In v (findings lang content) ->
  exists ic p m t prefix level,
    In (ic, p) all_rule_patterns
    /\ In m (Re.finditer ic p content)
    /\ v = found content t prefix level m.
Proof.
  assert (Hother : forall ps m,
             (forall p, In p ps -> In p other_patterns) ->
             In m (all_matches false ps content) ->
             exists p, In (false, p) all_rule_patterns
                       /\ In m (Re.finditer false p content)).
  { intros ps m Hsub Hm.
    destruct (in_other_patterns _ _ _ _ Hsub Hm) as (p & Hp & Hf).
    exists p. split; [|exact Hf]. unfold all_rule_patterns.
    apply in_app_iff. left. by apply in_map. }
  assert (Hone : forall p m,
             In p other_patterns -> In m (Re.finditer false p content) ->
             exists p, In (false, p) all_rule_patterns
                       /\ In m (Re.finditer false p content)).
  { intros p m Hp Hm. exists p. split; [|exact Hm].
    unfold all_rule_patterns. apply in_app_iff. left. by apply in_map. }
  assert (Hsecret : forall m,
             In m (List.filter kept
                     (all_matches true Patterns.hardcoded_secrets content)) ->
             exists p, In (true, p) all_rule_patterns
                       /\ In m (Re.finditer true p content)).
  { intros m Hm. apply filter_In in Hm. destruct Hm as [Hm _].
    apply in_all_matches in Hm. destruct Hm as (p & Hp & Hf).
    exists p. split; [|exact Hf]. unfold all_rule_patterns.
    apply in_app_iff. right. by apply in_map. }
  unfold findings. destruct content as [|c content]; [intros []|].
  set (text := c :: content) in *.
  destruct (String.eqb lang "python");
    [|destruct (is_js_language lang); [|intros []]];
    unfold python_findings, js_findings, secret_found;
    rewrite !in_app_iff; intros [H | [H | [H | H]]];
    apply in_map_found_origin in H; destruct H as (m & Hm & ->).
  1-3: apply Hother in Hm;
    [destruct Hm as (p & Hp & Hf); by eexists false, p, m, _, _, _
    | intros p Hp; unfold other_patterns; rewrite !in_app_iff; tauto].
  1,5: apply Hsecret in Hm; destruct Hm as (p & Hp & Hf);
    by eexists true, p, m, _, _, _.
  all: eapply Hone in Hm;
    [destruct Hm as (p & Hp & Hf); by eexists false, p, m, _, _, _
    | unfold other_patterns; rewrite !in_app_iff; cbn [In]; tauto].
Qed.

Lemma findings_nil lang content :
  (forall ic p, In (ic, p) all_rule_patterns -> Re.finditer ic p content = []) ->
  findings lang content = [].
Proof.
  intros Hnone. destruct (findings lang content) as [|v vs] eqn:E;
    [reflexivity|].
  destruct (findings_origin lang content v) as (ic & p & m & _ & _ & _ & Hp & Hm & _).
  { rewrite E. by left. }
  rewrite (Hnone ic p Hp) in Hm. destruct Hm.
Qed.

(** ** What a match consumes *)

Lemma caseless_lparen : caseless "("%char.
Proof.
  intros [] x; destruct x as [[] [] [] [] [] [] [] []]; simpl;
    intros H; try discriminate H; reflexivity.
Qed.

Lemma caseless_equals : caseless "="%char.
Proof.
  intros [] x; destruct x as [[] [] [] [] [] [] [] []]; simpl;
    intros H; try discriminate H; reflexivity.
Qed.

Lemma plus_inv ic cl k s out :
  Re.run ic (Re.Plus cl) k s = Some out ->
  exists x w s',
    s = x :: w ++ s'
    /\ Re.in_class ic cl x = true
    /\ Forall (fun y => Re.in_class ic cl y = true) w
    /\ k s' = Some out.
Proof.
  cbn [Re.run]. destruct s as [|x s]; [discriminate|].
  destruct (Re.in_class ic cl x) eqn:Hx; [|discriminate].
  intros H. apply star_greedy_inv in H. destruct H as (w & s' & -> & Hw & Hk).
  by exists x, w, s'.
Qed.

Lemma run_consumes ic c r :
  caseless c ->
  forall k s out,
    Re.run ic r k s = Some out ->
    exists pre s',
      s = pre ++ s' /\ k s' = Some out
      /\ (must_consume c r = true -> In c pre).
Proof.
  intros Hc.
  induction r as [|c'|cl|cl|cl|cl|r1 IH1 r2 IH2|r IH]; intros k s out H.
  - exists [], s. by repeat split.
  - apply run_Lit_inv in H. destruct H as (x & s' & -> & Hx & Hk).
    exists [x], s'. repeat split; [exact Hk|].
    cbn [must_consume]. intros E. apply chars_eqb_eq in E. subst c'.
    left. by apply (Hc ic).
  - cbn [Re.run] in H. destruct s as [|x s']; [discriminate|].
    destruct (Re.in_class ic cl x); [|discriminate].
    exists [x], s'. by repeat split.
  - cbn [Re.run] in H. apply star_greedy_inv in H.
    destruct H as (w & s' & -> & _ & Hk). exists w, s'. by repeat split.
  - apply plus_inv in H. destruct H as (x & w & s' & -> & _ & _ & Hk).
    exists (x :: w), s'. by repeat split.
  - cbn [Re.run] in H. destruct s as [|x s'];
      [exists [], []; by repeat split|].
    destruct (Re.in_class ic cl x);
      [|exists [], (x :: s'); by repeat split].
    destruct (k s') as [o|] eqn:E.
    + injection H as <-. exists [x], s'. by repeat split.
    + exists [], (x :: s'). by repeat split.
  - rewrite run_seq in H.
    destruct (IH1 _ _ _ H) as (pre1 & s1 & -> & H1 & Hin1).
    destruct (IH2 _ _ _ H1) as (pre2 & s2 & -> & H2 & Hin2).
    exists (pre1 ++ pre2), s2. rewrite app_assoc.
    repeat split; [exact H2|].
    cbn [must_consume]. rewrite orb_true_iff, in_app_iff. tauto.
  - apply run_NegLook_inv in H. destruct H as [_ Hk].
    exists [], s. by repeat split.
Qed.

Lemma in_skipn {A : Type} (x : A) n (l : list A) : In x (skipn n l) -> In x l.
Proof.
  intros H. rewrite <- (firstn_skipn n l). apply in_app_iff. by right.
Qed.

Lemma every_pattern_needs_a_trigger :
  forallb (fun icp => must_consume "("%char icp.2 || must_consume "="%char icp.2)
    all_rule_patterns = true.
Proof. vm_compute. reflexivity. Qed.

Lemma no_pattern_matches_nothing :
  forallb (fun icp => match Re.match_here icp.1 icp.2 [] with
                      | None => true
                      | Some _ => false
                      end)
    all_rule_patterns = true.
Proof. vm_compute. reflexivity. Qed.

(** A match of a rule pattern contains an opening parenthesis or an equals
    sign. *)
Lemma match_has_trigger ic p content m :
  In (ic, p) all_rule_patterns ->
  In m (Re.finditer ic p content) ->
  In "("%char content \/ In "="%char content.
Proof.
  intros Hp Hm.
  pose proof every_pattern_needs_a_trigger as Hall.
  rewrite forallb_forall in Hall. specialize (Hall _ Hp). cbn [snd] in Hall.
  apply finditer_sound in Hm. destruct Hm as (out & _ & Hmatch & _).
  unfold Re.match_here in Hmatch.
  apply orb_true_iff in Hall. destruct Hall as [Hc | Hc]; [left | right].
  - destruct (run_consumes ic _ p caseless_lparen _ _ _ Hmatch)
      as (pre & s' & Hs & _ & Hin).
    apply (in_skipn _ (Re.m_start m)). rewrite Hs, in_app_iff. left. by apply Hin.
  - destruct (run_consumes ic _ p caseless_equals _ _ _ Hmatch)
      as (pre & s' & Hs & _ & Hin).
    apply (in_skipn _ (Re.m_start m)). rewrite Hs, in_app_iff. left. by apply Hin.
Qed.

(** A match of a rule pattern starts inside the content. *)
Lemma match_starts_inside ic p content m :
  In (ic, p) all_rule_patterns ->
  In m (Re.finditer ic p content) ->
  (Re.m_start m < length content)%nat.
Proof.
  intros Hp Hm.
  pose proof no_pattern_matches_nothing as Hall.
  rewrite forallb_forall in Hall. specialize (Hall _ Hp). cbn [fst snd] in Hall.
  apply finditer_sound in Hm. destruct Hm as (out & Hle & Hmatch & _).
  destruct (Nat.eq_dec (Re.m_start m) (length content)) as [E | E]; [|lia].
  rewrite E, drop_all in Hmatch. rewrite Hmatch in Hall. discriminate Hall.
Qed.

(** ** Order of the matches *)

Lemma finditer_from_lower ic r s pos skip m :
  In m (Re.finditer_from ic r s pos skip) ->
  (pos + skip <= Re.m_start m)%nat.
Proof.
  revert pos skip. induction s as [|x s IH]; intros pos skip.
  - destruct skip; simpl; [|intros []].
    destruct (Re.match_here ic r []); [|intros []].
    intros [<- | []]. simpl. lia.
  - destruct skip as [|skip]; simpl.
    + destruct (Re.match_here ic r (x :: s)).
      * intros [<- | H]; [simpl; lia|]. apply IH in H. lia.
      * intros H. apply IH in H. lia.
    + intros H. apply IH in H. lia.
Qed.

Lemma finditer_from_sorted ic r s pos skip :
  StronglySorted match_before (Re.finditer_from ic r s pos skip).
Proof.
  revert pos skip. induction s as [|x s IH]; intros pos skip.
  - destruct skip; simpl; [|constructor].
    destruct (Re.match_here ic r []); repeat constructor.
  - destruct skip as [|skip]; simpl; [|apply IH].
    destruct (Re.match_here ic r (x :: s)) as [out|] eqn:E; [|apply IH].
    constructor; [apply IH|].
    apply Forall_forall. intros m Hm. apply list_elem_of_In in Hm.
    apply finditer_from_lower in Hm.
    unfold match_before. cbn [Re.m_start Re.m_group0].
    rewrite length_firstn. simpl length. lia.
Qed.

Lemma found_positions_sorted content t prefix level ms :
  StronglySorted match_before ms ->
  StronglySorted position_before (map (found content t prefix level) ms).
Proof.
  induction 1 as [|m ms Hs IH Hall]; simpl; constructor; [exact IH|].
  apply Forall_forall. intros v Hv. apply list_elem_of_In, in_map_iff in Hv.
  destruct Hv as (m' & <- & Hm').
  rewrite Forall_forall in Hall. apply list_elem_of_In, Hall in Hm'.
  unfold position_before, match_before in *. simpl. lia.
Qed.

(** ** The JavaScript rules *)

(** With nothing left to match, a greedy repetition takes every matching
    character. *)
Lemma star_greedy_all p k s out :
  (forall t, k t = Some t) ->
  Re.star_greedy p k s = Some out ->
  exists w,
    s = w ++ out
    /\ Forall (fun x => p x = true) w
    /\ match out with [] => True | x :: _ => p x = false end.
Proof.
  intros Hk. revert out. induction s as [|x s IH]; intros out; simpl.
  - rewrite Hk. intros [= <-]. by exists [].
  - destruct (p x) eqn:Hx.
    + destruct (Re.star_greedy p k s) as [o|] eqn:E.
      * intros [= <-]. destruct (IH o eq_refl) as (w & -> & Hw & Hout).
        exists (x :: w). repeat split; [by constructor | exact Hout].
      * destruct (star_greedy_here p k s) as [o Ho]; [rewrite Hk; eauto|].
        congruence.
    + rewrite Hk. intros [= <-]. exists []. by repeat split.
Qed.

Lemma none_of_spec c x :
  Re.in_class false (Re.NoneOf [c]) x = true -> x <> c.
Proof.
  simpl. unfold Re.mem. simpl. rewrite orb_false_r.
  intros H ->. rewrite (proj2 (chars_eqb_eq c c) eq_refl) in H. discriminate H.
Qed.

Lemma Forall_none_of c w :
  Forall (fun x => Re.in_class false (Re.NoneOf [c]) x = true) w -> ~ In c w.
Proof.
  induction 1 as [|x w Hx Hw IH]; [intros []|].
  intros [-> | Hin]; [by apply none_of_spec in Hx | exact (IH Hin)].
Qed.

Lemma js_call_inv head s out :
  Re.match_here false
    (Re.seq [Re.lit (txt head); Re.Plus Patterns.not_rparen; Re.Lit ")"%char])
    s = Some out ->
  exists body,
    s = txt head ++ body ++ ")"%char :: out
    /\ body <> [] /\ ~ In ")"%char body.
Proof.
  unfold Re.match_here, Re.seq. rewrite !run_seq. intros H.
  apply run_lit_inv in H. destruct H as (s1 & -> & H).
  apply plus_inv in H. destruct H as (x & w & s2 & -> & Hx & Hw & H).
  apply lit_false_inv in H. destruct H as (s3 & -> & H).
  simpl in H. injection H as ->.
  exists (x :: w). split; [reflexivity|]. split; [discriminate|].
  apply Forall_not_rparen. by constructor.
Qed.

Lemma space_class_spec ic w :
  Forall (fun x => Re.in_class ic Re.Space x = true) w -> all_space w.
Proof. by intros H. Qed.

Lemma innerhtml_inv s out :
  Re.match_here false Patterns.innerhtml s = Some out ->
  exists ws1 ws2 value,
    s = txt ".innerHTML" ++ ws1 ++ "="%char :: ws2 ++ value ++ out
    /\ all_space ws1 /\ all_space ws2
    /\ value <> [] /\ ~ In ";"%char value
    /\ (out = [] \/ exists tail', out = ";"%char :: tail').
Proof.
  unfold Re.match_here, Patterns.innerhtml, Re.seq. rewrite !run_seq.
  intros H.
  apply run_lit_inv in H. destruct H as (s1 & -> & H).
  cbn [Re.run] in H.
  apply star_greedy_inv in H. destruct H as (ws1 & s2 & -> & H1 & H).
  destruct s2 as [|x s2]; [discriminate|].
  destruct (Re.lit_matches false "=" x) eqn:Hx; [|discriminate].
  apply chars_eqb_eq in Hx. subst x.
  apply star_greedy_inv in H. destruct H as (ws2 & s3 & -> & H2 & H).
  destruct s3 as [|y s3]; [discriminate|].
  destruct (Re.in_class false (Re.NoneOf [";"%char]) y) eqn:Hy; [|discriminate].
  apply star_greedy_all in H; [|reflexivity].
  destruct H as (w & -> & Hw & Hout).
  exists ws1, ws2, (y :: w).
  split; [reflexivity|]. split; [exact H1|]. split; [exact H2|].
  split; [discriminate|].
  split; [apply Forall_none_of; by constructor|].
  destruct out as [|z out']; [by left | right].
  exists out'. f_equal.
  simpl in Hout. unfold Re.mem in Hout. simpl in Hout.
  rewrite orb_false_r in Hout. apply negb_false_iff, chars_eqb_eq in Hout.
  exact Hout.
Qed.

(** ** Overlapping SQL patterns *)

Lemma finditer_from_miss ic r x s pos :
  Re.match_here ic r (x :: s) = None ->
  Re.finditer_from ic r (x :: s) pos 0 = Re.finditer_from ic r s (S pos) 0.
Proof. intros H. simpl. by rewrite H. Qed.

Lemma finditer_from_hit ic r s pos :
  is_Some (Re.match_here ic r s) ->
  exists g ms, Re.finditer_from ic r s pos 0 = Re.MkMatch pos g :: ms.
Proof.
  intros [out E]. destruct s as [|x s]; simpl; rewrite E; eauto.
Qed.

Lemma first_occurrence (c : ascii) s :
  In c s -> exists w t, s = w ++ c :: t /\ ~ In c w.
Proof.
  induction s as [|x s IH]; [intros []|].
  destruct (ascii_dec x c) as [-> | Hx].
  - intros _. exists [], s. split; [reflexivity | intros []].
  - intros [E | Hin]; [congruence|].
    destruct (IH Hin) as (w & t & -> & Hw).
    exists (x :: w), t. split; [reflexivity|].
    intros [E | Hin']; [congruence | exact (Hw Hin')].
Qed.

Lemma not_in_class_none_of c w :
  ~ In c w -> Forall (fun x => Re.in_class false (Re.NoneOf [c]) x = true) w.
Proof.
  induction w as [|x w IH]; intros Hfree; constructor.
  - simpl. unfold Re.mem. simpl. rewrite orb_false_r.
    apply negb_true_iff, chars_eqb_neq. intros ->. apply Hfree. by left.
  - apply IH. intros Hin. apply Hfree. by right.
Qed.

Lemma run_lit_recase_false p k s :
  Re.run false (Re.lit p) k (p ++ s) = k s.
Proof.
  induction p as [|c p IH]; [reflexivity|].
  cbn [Re.lit app]. rewrite run_seq. cbn [Re.run Re.lit_matches].
  by rewrite (proj2 (chars_eqb_eq c c) eq_refl).
Qed.

(** [[^,]*\+[^\)]*\)] succeeds on text without comma, a plus sign and text
    with a closing parenthesis. *)
Lemma concat_tail_matches k a rest :
  (forall t, k t = Some t) ->
  ~ In ","%char a -> In ")"%char rest ->
  is_Some
    (Re.run false
       (Re.seq [Re.Star Patterns.not_comma; Re.Lit "+"%char;
                Re.Star Patterns.not_rparen; Re.Lit ")"%char])
       k (a ++ "+"%char :: rest)).
Proof.
  intros Hk Ha Hrest.
  destruct (first_occurrence _ _ Hrest) as (w & t & -> & Hw).
  unfold Re.seq. rewrite run_seq. cbn [Re.run].
  apply star_greedy_after; [by apply not_in_class_none_of|].
  cbn [Re.lit_matches Chars.eqb]. rewrite (proj2 (Ascii.eqb_eq _ _) eq_refl).
  exists t. apply star_greedy_exact;
    [by apply not_in_class_none_of | reflexivity |].
  cbn [Re.lit_matches Chars.eqb]. rewrite (proj2 (Ascii.eqb_eq _ _) eq_refl).
  apply Hk.
Qed.

Lemma two_penalties vs v1 v2 :
  In v1 vs -> In v2 vs -> v1 <> v2 ->
  penalty (v_level v1) + penalty (v_level v2)
  <= total_penalty (map v_level vs).
Proof.
  induction vs as [|v vs IH]; [intros []|].
  change (total_penalty (map v_level (v :: vs)))
    with (penalty (v_level v) + total_penalty (map v_level vs)).
  pose proof (penalty_nonneg (v_level v)).
  pose proof (total_penalty_nonneg (map v_level vs)).
  assert (Hone : forall u, In u vs ->
            penalty (v_level u) <= total_penalty (map v_level vs)).
  { clear. induction vs as [|v vs IH]; [intros u []|].
    intros u [<- | Hin];
      change (total_penalty (map v_level (v :: vs)))
        with (penalty (v_level v) + total_penalty (map v_level vs)).
    - pose proof (total_penalty_nonneg (map v_level vs)). lia.
    - pose proof (penalty_nonneg (v_level v)). specialize (IH u Hin). lia. }
  intros [<- | H1] [<- | H2] Hne.
  - congruence.
  - specialize (Hone _ H2). lia.
  - specialize (Hone _ H1). lia.
  - specialize (IH H1 H2 Hne). lia.
Qed.

(** Both the [execute] and the [cursor.execute] concatenation patterns
    match in a [cursor.execute] call: at offsets 7 and 0. *)
Lemma cursor_execute_matches a rest :
  ~ In ","%char a -> In ")"%char rest ->
  exists g1 g2,
    In (Re.MkMatch 7 g1)
       (all_matches false Patterns.sql_injection (cursor_execute_concat a rest))
    /\ In (Re.MkMatch 0 g2)
         (all_matches false Patterns.sql_injection
            (cursor_execute_concat a rest)).
Proof.
  intros Ha Hrest.
  set (content := cursor_execute_concat a rest).
  destruct (finditer_from_hit false
              (Re.seq [Re.lit (txt "execute("); Re.Star Patterns.not_comma;
                       Re.Lit "+"%char; Re.Star Patterns.not_rparen;
                       Re.Lit ")"%char])
              (txt "execute(" ++ a ++ "+"%char :: rest) 7) as (g1 & ms1 & H1).
  { unfold Re.match_here. unfold Re.seq at 1. rewrite run_seq, run_lit_recase_false.
    by apply concat_tail_matches. }
  destruct (finditer_from_hit false
              (Re.seq [Re.lit (txt "cursor.execute("); Re.Star Patterns.not_comma;
                       Re.Lit "+"%char; Re.Star Patterns.not_rparen;
                       Re.Lit ")"%char])
              content 0) as (g2 & ms2 & H2).
  { unfold Re.match_here, content, cursor_execute_concat.
    unfold Re.seq at 1. rewrite run_seq, run_lit_recase_false.
    by apply concat_tail_matches. }
  exists g1, g2. unfold all_matches, Patterns.sql_injection.
  cbn [map concat]. rewrite !in_app_iff. split.
  - left. unfold Re.finditer, content, cursor_execute_concat.
    change (txt "cursor.execute(" ++ a ++ "+"%char :: rest)
      with ("c"%char :: "u"%char :: "r"%char :: "s"%char :: "o"%char
            :: "r"%char :: "."%char
            :: txt "execute(" ++ a ++ "+"%char :: rest).
    do 7 (rewrite finditer_from_miss by reflexivity).
    rewrite H1. by left.
  - right. right. right. left. unfold Re.finditer. rewrite H2. by left.
Qed.

(** ** What the secret patterns match *)













(** ** The SQL and deserialization patterns *)

Lemma quote_class_inv q :
  Re.in_class false Patterns.quote q = true -> is_quote q.
Proof.
  simpl. unfold Re.mem. simpl. rewrite orb_false_r, orb_true_iff.
  intros [H | H]; apply chars_eqb_eq in H; [by left | by right].
Qed.

Lemma not_quote_class_inv w :
  Forall (fun c => Re.in_class false Patterns.not_quote c = true) w ->
  quote_free w.
Proof.
  induction 1 as [|c w Hc Hw IH]; constructor; [|exact IH].
  simpl in Hc. unfold Re.mem in Hc. simpl in Hc.
  rewrite orb_false_r in Hc. apply negb_true_iff, orb_false_iff in Hc.
  destruct Hc as [H1 H2]. by apply chars_eqb_neq in H1, H2.
Qed.

Lemma none_of_two_inv a b w :
  Forall (fun c => Re.in_class false (Re.NoneOf [a; b]) c = true) w ->
  ~ In a w /\ ~ In b w.
Proof.
  induction 1 as [|c w Hc Hw [IHa IHb]]; [split; intros []|].
  simpl in Hc. unfold Re.mem in Hc. simpl in Hc.
  rewrite orb_false_r in Hc. apply negb_true_iff, orb_false_iff in Hc.
  destruct Hc as [H1 H2]. apply chars_eqb_neq in H1, H2.
  split; intros [E | Hin]; [congruence | tauto | congruence | tauto].
Qed.

Lemma concat_pattern_inv head op s out :
  Re.match_here false
    (Re.seq [Re.lit (txt head); Re.Star Patterns.not_comma; Re.Lit op;
             Re.Star Patterns.not_rparen; Re.Lit ")"%char]) s = Some out ->
  exists a b,
    s = txt head ++ a ++ op :: b ++ ")"%char :: out
    /\ ~ In ","%char a /\ ~ In ")"%char b.
Proof.
  unfold Re.match_here, Re.seq. rewrite !run_seq. intros H.
  apply run_lit_inv in H. destruct H as (s1 & -> & H).
  cbn [Re.run] in H.
  apply star_greedy_inv in H. destruct H as (a & s2 & -> & Ha & H).
  destruct s2 as [|x s2]; [discriminate|].
  destruct (Re.lit_matches false op x) eqn:Hx; [|discriminate].
  apply chars_eqb_eq in Hx. subst x.
  apply star_greedy_inv in H. destruct H as (b & s3 & -> & Hb & H).
  destruct s3 as [|y s3]; [discriminate|].
  destruct (Re.lit_matches false ")" y) eqn:Hy; [|discriminate].
  apply chars_eqb_eq in Hy. subst y. injection H as <-.
  exists a, b. split; [reflexivity|].
  split; [by apply Forall_none_of | by apply Forall_not_rparen].
Qed.

Lemma fstring_pattern_inv s out :
  Re.match_here false
    (Re.seq [Re.lit (txt "execute("); Re.Star Patterns.not_comma;
             Re.Lit "f"%char; Re.Cls Patterns.quote;
             Re.Star Patterns.not_quote; Re.Lit "{"%char;
             Re.Star (Re.NoneOf ["}"%char]); Re.Lit "}"%char;
             Re.Star Patterns.not_quote; Re.Cls Patterns.quote]) s
  = Some out ->
  exists a q1 s1 s2 s3 q2,
    s = txt "execute(" ++ a ++ "f"%char :: q1 :: s1 ++ "{"%char :: s2
        ++ "}"%char :: s3 ++ q2 :: out
    /\ ~ In ","%char a /\ is_quote q1 /\ is_quote q2
    /\ quote_free s1 /\ ~ In "}"%char s2 /\ quote_free s3.
Proof.
  unfold Re.match_here, Re.seq. rewrite !run_seq. intros H.
  apply run_lit_inv in H. destruct H as (s0 & -> & H).
  cbn [Re.run] in H.
  apply star_greedy_inv in H. destruct H as (a & t & -> & Ha & H).
  destruct t as [|x t]; [discriminate|].
  destruct (Re.lit_matches false "f" x) eqn:Hx; [|discriminate].
  apply chars_eqb_eq in Hx. subst x.
  destruct t as [|q1 t]; [discriminate|].
  destruct (Re.in_class false Patterns.quote q1) eqn:Hq1; [|discriminate].
  apply star_greedy_inv in H. destruct H as (s1 & t1 & -> & H1 & H).
  destruct t1 as [|x t1]; [discriminate|].
  destruct (Re.lit_matches false "{" x) eqn:Hx; [|discriminate].
  apply chars_eqb_eq in Hx. subst x.
  apply star_greedy_inv in H. destruct H as (s2 & t2 & -> & H2 & H).
  destruct t2 as [|x t2]; [discriminate|].
  destruct (Re.lit_matches false "}" x) eqn:Hx; [|discriminate].
  apply chars_eqb_eq in Hx. subst x.
  apply star_greedy_inv in H. destruct H as (s3 & t3 & -> & H3 & H).
  destruct t3 as [|q2 t3]; [discriminate|].
  destruct (Re.in_class false Patterns.quote q2) eqn:Hq2; [|discriminate].
  injection H as <-.
  exists a, q1, s1, s2, s3, q2. split; [reflexivity|].
  split; [by apply Forall_none_of|].
  split; [by apply quote_class_inv|]. split; [by apply quote_class_inv|].
  split; [by apply not_quote_class_inv|].
  split; [by apply Forall_none_of | by apply not_quote_class_inv].
Qed.

Lemma yaml_pattern_inv s out :
  Re.match_here false
    (Re.seq [Re.lit (txt "yaml.load("); Re.Star (Re.NoneOf [","%char; ")"%char]);
             Re.Lit ")"%char]) s = Some out ->
  exists args,
    s = txt "yaml.load(" ++ args ++ ")"%char :: out
    /\ ~ In ","%char args /\ ~ In ")"%char args.
Proof.
  unfold Re.match_here, Re.seq. rewrite !run_seq. intros H.
  apply run_lit_inv in H. destruct H as (s1 & -> & H).
  cbn [Re.run] in H.
  apply star_greedy_inv in H. destruct H as (args & s2 & -> & Ha & H).
  destruct s2 as [|y s2]; [discriminate|].
  destruct (Re.lit_matches false ")" y) eqn:Hy; [|discriminate].
  apply chars_eqb_eq in Hy. subst y. injection H as <-.
  exists args. split; [reflexivity|]. by apply none_of_two_inv.
Qed.

Lemma lit_pattern_inv head s out :
  Re.match_here false (Re.lit (txt head)) s = Some out -> s = txt head ++ out.
Proof.
  unfold Re.match_here. intros H. apply run_lit_inv in H.
  destruct H as (s' & -> & [= ->]). reflexivity.
Qed.

Lemma map_found_type content t prefix level ms :
  all_of_type t (map (found content t prefix level) ms).
Proof.
  unfold all_of_type. induction ms as [|m ms IH]; simpl; constructor;
    [reflexivity | exact IH].
Qed.

(** ** When the shell rules match *)

(** The lookahead body matches only text that begins with a quoted
    word. *)
Lemma quoted_word_sound s out :
  Re.run false Patterns.quoted_word Some s = Some out ->
  starts_with_quoted_word s.
Proof.
  unfold Patterns.quoted_word, Re.seq. rewrite !run_seq. intros H.
  cbn [Re.run] in H. destruct s as [|q1 s]; [discriminate|].
  destruct (Re.in_class false Patterns.quote q1) eqn:Hq1; [|discriminate].
  destruct s as [|x s]; [discriminate|].
  destruct (Re.in_class false Re.Word x) eqn:Hx; [|discriminate].
  apply star_greedy_inv in H. destruct H as (w & s2 & -> & Hw & H).
  destruct s2 as [|q2 s2]; [discriminate|].
  destruct (Re.in_class false Patterns.quote q2) eqn:Hq2; [|discriminate].
  exists q1, (x :: w), q2, s2.
  split; [reflexivity|].
  split; [by apply quote_class_inv|]. split; [by apply quote_class_inv|].
  split; [discriminate|]. by constructor.
Qed.

(** A shell call whose argument has no closing parenthesis inside and does
    not begin with a quoted word is matched up to its closing
    parenthesis. *)
Lemma shell_call_matches name arg tail :
  ~ In ")"%char arg ->
  ~ starts_with_quoted_word (arg ++ ")"%char :: tail) ->
  Re.match_here false (Patterns.shell_call name)
    (txt name ++ "("%char :: arg ++ ")"%char :: tail) = Some tail.
Proof.
  intros Harg Hlook.
  unfold Re.match_here, Patterns.shell_call, Re.seq.
  rewrite run_seq, run_lit_recase_false, run_seq.
  cbn [Re.run Re.lit_matches].
  rewrite (proj2 (chars_eqb_eq _ _) eq_refl).
  destruct (Re.run false Patterns.quoted_word Some (arg ++ ")"%char :: tail))
    as [o|] eqn:E; [exfalso; apply Hlook; by eapply quoted_word_sound|].
  apply star_greedy_exact;
    [by apply not_in_class_none_of | reflexivity |].
  by rewrite (proj2 (chars_eqb_eq _ _) eq_refl).
Qed.

Lemma shell_call_recorded name arg tail :
  In name shell_names ->
  ~ In ")"%char arg ->
  ~ starts_with_quoted_word (arg ++ ")"%char :: tail) ->
  In example_call_at_start
     (vulns (_check_for_os_command_injection (fresh_file "a.py" "python")
               (txt name ++ "("%char :: arg ++ ")"%char :: tail))).
Proof.
  intros Hname Harg Hlook.
  set (content := txt name ++ "("%char :: arg ++ ")"%char :: tail).
  pose proof (shell_call_matches name arg tail Harg Hlook) as Hm.
  destruct (finditer_head _ _ _ _ Hm) as (pre & ms & _ & Hfind).
  fold content in Hfind.
  rewrite check_os_add_all, vulns_add_all_fresh.
  apply in_map_iff. exists (Re.MkMatch 0 pre). split.
  - unfold found. cbn [Re.m_start]. rewrite location_of_start.
    vm_compute. reflexivity.
  - unfold all_matches. apply in_concat.
    exists (Re.finditer false (Patterns.shell_call name) content).
    split; [|rewrite Hfind; by left].
    apply in_map_iff. exists (Patterns.shell_call name).
    split; [reflexivity|].
    unfold shell_names in Hname. cbn [In] in Hname.
    unfold Patterns.os_command_injection. cbn [In].
    destruct Hname as [<- | [<- | [<- | []]]]; tauto.
Qed.


(** * The claims *)

(** C1.  For a fresh file record (no vulnerability, score 100) the score
    after [analyze_file] is [max 0 (100 - sum of the penalties)] of the
    recorded vulnerabilities, with penalties 25, 15, 5 and 1 for CRITICAL,
    HIGH_RISK, MEDIUM_RISK and LOW_RISK; applying the per-step clamped
    deductions of [_add_vulnerability] in any other order of the same
    severities ends on the same score. *)
Theorem analyze_file_score_closed_form :
  forall (Any : Type) (path lang : string) (content : list ascii)
         (ast_data : Any),
    let fm := analyze_file (fresh_file path lang) content ast_data in
    penalty CRITICAL = 25 /\ penalty HIGH_RISK = 15
    /\ penalty MEDIUM_RISK = 5 /\ penalty LOW_RISK = 1
    /\ score fm = Z.max 0 (100 - total_penalty (map v_level (vulns fm)))
    /\ forall levels : list SecurityLevel,
         Permutation levels (map v_level (vulns fm)) ->
         apply_levels 100 levels = score fm.
Proof.
  intros Any path lang content ast_data fm.
  assert (Hfm : fm = add_all (fresh_file path lang) (findings lang content))
    by apply analyze_file_findings.
  repeat split; try reflexivity.
  - rewrite Hfm, vulns_add_all_fresh, score_add_all_fresh.
    apply apply_levels_closed. lia.
  - intros levels Hperm.
    rewrite Hfm in *. rewrite vulns_add_all_fresh in Hperm.
    rewrite score_add_all_fresh, !apply_levels_closed by lia.
    by rewrite (total_penalty_perm _ _ Hperm).
Qed.

Lemma analyze_file_score_closed_form_witness :
  apply_levels 100 [HIGH_RISK; HIGH_RISK]
  = score (analyze_file (fresh_file "a.py" "python") example_two_findings tt).
Proof.
  pose proof (analyze_file_score_closed_form unit "a.py" "python"
                example_two_findings tt) as H.
  simpl in H. destruct H as (_ & _ & _ & _ & _ & H).
  apply H. vm_compute. apply Permutation_refl.
Defined.

(** C2.  Python content with the secret assignment on line 1 and
    [os.system(user_input)] on line 2, scanned into a fresh record, records
    exactly two vulnerabilities, an [os_command_injection] of HIGH_RISK on
    line 2 and a [hardcoded_secret] of HIGH_RISK on line 1, and leaves the
    score at 70. *)
Theorem end_to_end_example :
  forall (Any : Type) (path : string) (ast_data : Any),
    let fm :=
      analyze_file (fresh_file path "python") example_two_findings ast_data in
    vulns fm =
      [ MkVulnerability (Some "os_command_injection")
          "Possible command injection at line 2" (MkLocation 2 1 20)
          HIGH_RISK "high";
        MkVulnerability (Some "hardcoded_secret")
          "Possible hardcoded secret at line 1" (MkLocation 1 1 0)
          HIGH_RISK "high" ]
    /\ score fm = 70.
Proof.
  intros Any path ast_data fm. subst fm.
  rewrite analyze_file_findings, vulns_add_all_fresh, score_add_all_fresh.
  split; vm_compute; reflexivity.
Qed.

(** C6.  Starting from a fresh record, after every vulnerability that
    [analyze_file] appends the score lies between 0 and 100 and is not
    above the score before it; each step is one call of
    [_add_vulnerability] and the record after the last one is the result of
    the scan; when the penalties add up to 100 or more the final score is 0,
    as for five CRITICAL matches. *)
Theorem score_stays_in_range :
  forall (Any : Type) (path lang : string) (content : list ascii)
         (ast_data : Any),
    let start := fresh_file path lang in
    let fm := analyze_file start content ast_data in
    let after n := add_all start (firstn n (vulns fm)) in
    after 0%nat = start
    /\ after (length (vulns fm)) = fm
    /\ (forall n, 0 <= score (after n) <= 100)
    /\ (forall n, score (after (S n)) <= score (after n))
    /\ (forall n v,
          vulns fm !! n = Some v ->
          exists t msg,
            after (S n)
            = _add_vulnerability (after n) t msg (v_location v) (v_level v))
    /\ (100 <= total_penalty (map v_level (vulns fm)) -> score fm = 0)
    /\ score (analyze_file (fresh_file path "python") example_five_critical
                ast_data) = 0.
Proof.
  intros Any path lang content ast_data start fm after.
  assert (Hfm : fm = add_all start (findings lang content))
    by apply analyze_file_findings.
  assert (Hvs : vulns fm = findings lang content)
    by (rewrite Hfm; apply vulns_add_all_fresh).
  assert (Hrange : forall n, 0 <= score (after n) <= 100).
  { intros n. unfold after. subst start.
    rewrite score_add_all_fresh. apply apply_levels_range. lia. }
  split; [reflexivity|].
  split; [unfold after; by rewrite firstn_all, Hvs, Hfm|].
  split; [exact Hrange|].
  split.
  { intros n. unfold after.
    destruct (vulns fm !! n) as [v|] eqn:Hn.
    - rewrite (take_S_r _ _ _ Hn), <- add_all_app.
      change (score (add_all ?f [v])) with (adjust_score (score f) (v_level v)).
      apply adjust_score_le, Hrange.
    - apply lookup_ge_None in Hn.
      rewrite !firstn_all2 by lia. lia. }
  split.
  { intros n v Hn.
    assert (Hwf : well_formed v).
    { pose proof (findings_well_formed lang content) as Hall.
      rewrite Forall_forall in Hall. apply Hall.
      rewrite <- Hvs. by eapply list_elem_of_lookup_2. }
    destruct Hwf as (t & Ht & Hsev).
    exists t, (v_message v). unfold after.
    rewrite (take_S_r _ _ _ Hn), <- add_all_snoc.
    do 3 f_equal. destruct v; simpl in *; congruence. }
  split.
  { intros Hsum. rewrite Hfm at 1. subst start.
    rewrite score_add_all_fresh, <- Hvs, apply_levels_closed by lia. lia. }
  rewrite analyze_file_findings, score_add_all_fresh.
  vm_compute. reflexivity.
Qed.

Lemma score_stays_in_range_witness :
  100 <= total_penalty
           (map v_level
              (vulns (analyze_file (fresh_file "a.py" "python")
                        example_five_critical tt)))
  /\ score (analyze_file (fresh_file "a.py" "python") example_five_critical
              tt) = 0.
Proof.
  assert (H : 100 <= total_penalty
           (map v_level
              (vulns (analyze_file (fresh_file "a.py" "python")
                        example_five_critical tt)))).
  { vm_compute. discriminate. }
  split; [exact H|].
  pose proof (score_stays_in_range unit "a.py" "python"
                example_five_critical tt) as C.
  simpl in C. destruct C as (_ & _ & _ & _ & _ & C & _).
  exact (C H).
Defined.

(** C7.  [analyze_file] returns the record it was given, with the same
    vulnerability sequence and score, when the content is empty or when the
    language is none of python, javascript, typescript and jsx. *)
Theorem analyze_file_noop :
  forall (Any : Type) (fm : FileMetrics) (content : list ascii)
         (ast_data : Any),
    content = []
    \/ (language fm <> "python" /\ language fm <> "javascript"
        /\ language fm <> "typescript" /\ language fm <> "jsx") ->
    analyze_file fm content ast_data = fm
    /\ vulns (analyze_file fm content ast_data) = vulns fm
    /\ score (analyze_file fm content ast_data) = score fm.
Proof.
  intros Any fm content ast_data H.
  assert (E : analyze_file fm content ast_data = fm).
  { destruct H as [-> | (Hpy & Hjs & Hts & Hjsx)]; [reflexivity|].
    unfold analyze_file, is_js_language.
    destruct content as [|c content]; [reflexivity|].
    apply String.eqb_neq in Hpy, Hjs, Hts, Hjsx.
    by rewrite Hpy, Hjs, Hts, Hjsx. }
  by rewrite E.
Qed.

Lemma analyze_file_noop_witness :
  analyze_file (fresh_file "main.rs" "rust") (txt "eval(x)") tt
  = fresh_file "main.rs" "rust"
  /\ analyze_file (fresh_file "a.py" "python") [] tt
     = fresh_file "a.py" "python".
Proof.
  split.
  - apply (analyze_file_noop unit (fresh_file "main.rs" "rust")
             (txt "eval(x)") tt).
    right. repeat split; discriminate.
  - apply (analyze_file_noop unit (fresh_file "a.py" "python") [] tt).
    left. reflexivity.
Defined.

(** C9.  The syntax handle has no influence: for every record, language and
    content, two runs of [analyze_file] with any two handles, of any types
    and also with none, return the same record, with the same
    vulnerability sequence and the same score. *)
Theorem ast_data_is_ignored :
  forall (A B : Type) (fm : FileMetrics) (content : list ascii)
         (a : A) (b : B),
    analyze_file fm content a = analyze_file fm content b
    /\ analyze_file fm content a = analyze_file fm content (@None A)
    /\ vulns (analyze_file fm content a) = vulns (analyze_file fm content b)
    /\ score (analyze_file fm content a) = score (analyze_file fm content b).
Proof.
  intros A B fm content a b.
  assert (E : forall (X Y : Type) (x : X) (y : Y),
             analyze_file fm content x = analyze_file fm content y).
  { intros X Y x y. by rewrite !analyze_file_findings. }
  split; [apply E|]. split; [apply E|]. by rewrite (E A B a b).
Qed.


(** C4.  For an offset [p] between 0 and the length of the content,
    [_get_line_number] returns as line one plus the number of newlines
    before [p], as column one plus the number of characters between the
    last newline before [p] (or the start) and [p], and [p] itself as
    position; an offset at the first character of the third line resolves
    to line 3, column 1. *)
Theorem get_line_number_spec :
  forall (content : list ascii) (p : Z),
    0 <= p <= Z.of_nat (length content) ->
    let loc := _get_line_number content p in
    let before_p := firstn (Z.to_nat p) content in
    line loc = 1 + Z.of_nat (count_occ ascii_dec before_p Chars.newline)
    /\ (exists pre seg,
          before_p = pre ++ seg
          /\ ~ In Chars.newline seg
          /\ (pre = [] \/ exists pre', pre = pre' ++ [Chars.newline])
          /\ column loc = 1 + Z.of_nat (length seg))
    /\ position loc = p
    /\ (forall l1 l2 rest,
          ~ In Chars.newline l1 -> ~ In Chars.newline l2 ->
          content = l1 ++ Chars.newline :: l2 ++ Chars.newline :: rest ->
          p = Z.of_nat (length l1 + length l2 + 2) ->
          line loc = 3 /\ column loc = 1).
Proof.
  intros content p Hp loc before_p. subst loc. unfold _get_line_number.
  rewrite slice_to_nonneg by lia. fold before_p. simpl.
  split; [rewrite split_nl_length; lia|].
  split.
  { destruct (split_nl_last before_p) as (pre & Hs & Hfree & Hpre).
    exists pre, (List.last (split_nl before_p) []).
    repeat split; [exact Hs | exact Hfree | exact Hpre | lia]. }
  split; [reflexivity|].
  intros l1 l2 rest H1 H2 Hc Hpos.
  assert (Hb : before_p = l1 ++ Chars.newline :: l2 ++ [Chars.newline]).
  { unfold before_p. rewrite Hc, Hpos, Nat2Z.id.
    replace (l1 ++ Chars.newline :: l2 ++ Chars.newline :: rest)
      with ((l1 ++ Chars.newline :: l2 ++ [Chars.newline]) ++ rest)
      by (rewrite <- !app_assoc; simpl; rewrite <- app_assoc; reflexivity).
    apply take_app_length'. rewrite length_app. simpl.
    rewrite length_app. simpl. lia. }
  rewrite Hb, (split_nl_line l1) by exact H1.
  rewrite (split_nl_line l2) by exact H2.
  split; reflexivity.
Qed.

Lemma get_line_number_spec_witness :
  0 <= 6 <= Z.of_nat (length example_three_lines)
  /\ line (_get_line_number example_three_lines 6) = 3
  /\ column (_get_line_number example_three_lines 6) = 1.
Proof.
  assert (Hp : 0 <= 6 <= Z.of_nat (length example_three_lines))
    by (simpl; lia).
  split; [exact Hp|].
  destruct (get_line_number_spec example_three_lines 6 Hp) as (_ & _ & _ & H3).
  apply (H3 (txt "ab") (txt "cd") (txt "eval(x)")).
  - simpl. intros [E | [E | []]]; discriminate E.
  - simpl. intros [E | [E | []]]; discriminate E.
  - reflexivity.
  - reflexivity.
Defined.

(** C3.  After [analyze_project] the mapping [vulnerability_types] sends
    each type [t] to the number of vulnerabilities whose type field is [t],
    summed over the vulnerability sequences of all files (a type that does
    not occur has no entry; a vulnerability without type field counts for
    [unknown]); the mapping does not depend on what the project record held
    before, so a second run on the same files returns the same record;
    without files the mapping is empty.  For two files holding two
    [sql_injection] issues, one [xss] issue and one issue without type the
    mapping is [sql_injection] 2, [xss] 1, [unknown] 1, whatever was stored
    before. *)
Theorem analyze_project_counts :
  forall (pm : ProjectMetrics) (t : string),
    let types p := vulnerability_types (project_security (analyze_project p)) in
    let n := occurrences t (file_metrics pm) in
    types pm !! t = (if n =? 0 then None else Some n)
    /\ analyze_project (analyze_project pm) = analyze_project pm
    /\ (forall stale,
          types (MkProjectMetrics (file_metrics pm) stale) = types pm)
    /\ (forall stale, types (MkProjectMetrics [] stale) = ∅)
    /\ types example_mixed_project = example_mixed_types
    /\ types (analyze_project example_mixed_project) = example_mixed_types.
Proof.
  intros pm t types n.
  split.
  { unfold types, analyze_project. simpl.
    rewrite fold_files_lookup. unfold bumped.
    rewrite <- occurrences_project_count. fold n.
    rewrite lookup_empty. destruct (n =? 0); reflexivity. }
  split; [reflexivity|]. split; [reflexivity|]. split; [reflexivity|].
  split; vm_compute; reflexivity.
Qed.


(** C8, as stated, fails: [os.system] called with the string literal
    (quoted) [ls -la] is recorded, because the lookahead only rejects a
    quoted run of word characters. *)
Lemma literal_with_space_is_flagged : ~ literal_arguments_unflagged.
Proof.
  intros H.
  specialize (H "os.system"%string (quoted "ls -la")).
  assert (Hname : In "os.system"%string shell_names) by (left; reflexivity).
  assert (Hlit : quoted_literal (quoted "ls -la")).
  { exists dquote, (txt "ls -la"). split; [by right|].
    split; [reflexivity|].
    split; simpl; intros Hin;
      repeat (destruct Hin as [Hin | Hin]; [discriminate Hin|]);
      destruct Hin. }
  specialize (H Hname Hlit). vm_compute in H. discriminate H.
Qed.

(** C8, amended.  The OS command injection rules record a vulnerability
    only at an offset where the content reads [os.system(], [subprocess.call(]
    or [subprocess.Popen(] followed by text that runs to a closing
    parenthesis and does not begin with a quoted run of word characters, or
    where it reads [eval(] followed by text that runs to a closing
    parenthesis.  No vulnerability is recorded at a shell call whose
    argument begins with a quoted word, such as [os.system] of (quoted)
    [ls] or of (quoted) [it's].  A shell call at the start of the content
    whose argument has no closing parenthesis inside and does not begin
    with a quoted word is recorded, also when the argument is a quoted
    literal such as (quoted) [ls -la]. *)
Theorem os_command_injection_rules :
  forall (content : list ascii) (v : Vulnerability),
    let fm := _check_for_os_command_injection (fresh_file "a.py" "python")
                content in
    (In v (vulns fm) ->
       v_type v = Some "os_command_injection"
       /\ v_level v = HIGH_RISK
       /\ exists off,
            position (v_location v) = Z.of_nat off
            /\ (at_shell_call content off \/ at_eval_call content off))
    /\ (forall off name arg,
          In name shell_names ->
          skipn off content = txt name ++ "("%char :: arg ->
          starts_with_quoted_word arg ->
          In v (vulns fm) -> position (v_location v) <> Z.of_nat off)
    /\ vulns (_check_for_os_command_injection (fresh_file "a.py" "python")
                (txt "os.system(" ++ quoted "ls" ++ txt ")")) = []
    /\ map v_type
         (vulns (_check_for_os_command_injection (fresh_file "a.py" "python")
                   (txt "os.system(" ++ quoted "ls -la" ++ txt ")")))
       = [Some "os_command_injection"]
    /\ vulns (_check_for_os_command_injection (fresh_file "a.py" "python")
                (txt "os.system(" ++ quoted "it's" ++ txt ")")) = []
    /\ (forall name arg tail,
          In name shell_names ->
          ~ In ")"%char arg ->
          ~ starts_with_quoted_word (arg ++ ")"%char :: tail) ->
          In example_call_at_start
             (vulns (_check_for_os_command_injection
                       (fresh_file "a.py" "python")
                       (txt name ++ "("%char :: arg ++ ")"%char :: tail)))).
Proof.
  intros content v fm.
  assert (A : In v (vulns fm) ->
       v_type v = Some "os_command_injection"
       /\ v_level v = HIGH_RISK
       /\ exists off,
            position (v_location v) = Z.of_nat off
            /\ (at_shell_call content off \/ at_eval_call content off)).
  { intros Hin. apply os_command_injection_sound in Hin.
    destruct Hin as [[] | Hin]. exact Hin. }
  split; [exact A|].
  split;
    [|split; [vm_compute; reflexivity|];
      split; [vm_compute; reflexivity|];
      split; [vm_compute; reflexivity|];
      intros name arg tail; apply shell_call_recorded].
  intros off name arg Hname Hskip Hq Hin Hpos.
  destruct (A Hin) as (_ & _ & off' & Hpos' & Hat).
  assert (off' = off) by lia. subst off'.
  destruct Hat as [(name' & body & tail & Hname' & Hskip' & _ & Hlook)
                  | (body & tail & Hskip' & _)];
    rewrite Hskip in Hskip';
    unfold shell_names in Hname; simpl in Hname;
    destruct Hname as [<- | [<- | [<- | []]]].
  1-3: unfold shell_names in Hname'; simpl in Hname';
    destruct Hname' as [<- | [<- | [<- | []]]];
    simpl in Hskip'; try discriminate Hskip';
    injection Hskip' as ->; exact (Hlook Hq).
  all: simpl in Hskip'; discriminate Hskip'.
Qed.

Lemma os_command_injection_rules_witness :
  (In example_flagged_call
      (vulns (_check_for_os_command_injection (fresh_file "a.py" "python")
                example_two_calls))
   /\ position (v_location example_flagged_call) <> 0)
  /\ In example_call_at_start
       (vulns (_check_for_os_command_injection (fresh_file "a.py" "python")
                 (txt "subprocess.call" ++ "("%char :: quoted "ls -la"
                  ++ ")"%char :: txt " # list"))).
Proof.
  assert (Hin : In example_flagged_call
     (vulns (_check_for_os_command_injection (fresh_file "a.py" "python")
               example_two_calls))) by (vm_compute; left; reflexivity).
  split.
  - split; [exact Hin|].
    destruct (os_command_injection_rules example_two_calls
                example_flagged_call) as (_ & H & _).
    apply (H 0%nat "os.system"%string
             (quoted "ls" ++ txt "); os.system(cmd)")).
    + left. reflexivity.
    + reflexivity.
    + exists dquote, (txt "ls"), dquote, (txt "); os.system(cmd)").
      split; [reflexivity|]. split; [by right|]. split; [by right|].
      split; [discriminate|]. repeat constructor.
    + exact Hin.
  - destruct (os_command_injection_rules [] example_call_at_start)
      as (_ & _ & _ & _ & _ & H).
    apply (H "subprocess.call"%string (quoted "ls -la") (txt " # list")).
    + right. left. reflexivity.
    + simpl. intros Hc.
      repeat (destruct Hc as [Hc | Hc]; [discriminate Hc|]). destruct Hc.
    + intros Hq. apply quoted_word_complete in Hq.
      vm_compute in Hq. by destruct Hq.
Defined.


(** C5.  In the hardcoded secret scan a match whose text contains
    [os.environ] or [process.env] is skipped: the record, and so its
    vulnerability sequence and score, is left as it was.  Any other match
    is recorded as a [hardcoded_secret] of HIGH_RISK.  The scan as a whole
    adds exactly the matches without such an idiom.  The assignment of
    (quoted) [os.environ.KEY] to [password] records nothing, the
    assignment of (quoted) [my.secret.KEY1] records one HIGH_RISK
    [hardcoded_secret]. *)
Theorem secret_suppression :
  forall (fm : FileMetrics) (content : list ascii) (m : Re.rmatch),
    (env_idiom (Re.m_group0 m) -> record_secret content fm m = fm)
    /\ (~ env_idiom (Re.m_group0 m) ->
        let location := _get_line_number content (Z.of_nat (Re.m_start m)) in
        record_secret content fm m
        = _add_vulnerability fm "hardcoded_secret"
            ("Possible hardcoded secret at line " +:+ show (line location))
            location HIGH_RISK)
    /\ (exists ms,
          _check_for_hardcoded_secrets fm content
          = add_all fm (map (secret_found content) ms)
          /\ forall m',
               In m' ms <->
               In m' (all_matches true Patterns.hardcoded_secrets content)
               /\ ~ env_idiom (Re.m_group0 m'))
    /\ _check_for_hardcoded_secrets fm (password_assignment "os.environ.KEY")
       = fm
    /\ _check_for_hardcoded_secrets fm (txt "token = 'process.env.TOKEN'")
       = fm
    /\ _check_for_hardcoded_secrets fm (password_assignment "my.secret.KEY1")
       = _add_vulnerability fm "hardcoded_secret"
           "Possible hardcoded secret at line 1" (MkLocation 1 1 0) HIGH_RISK.
Proof.
  intros fm content m.
  split.
  { intros H. apply looks_like_env_spec in H.
    unfold record_secret. by rewrite H. }
  split.
  { intros H. apply kept_spec in H. unfold kept in H.
    unfold record_secret. destruct (looks_like_env m); [discriminate|].
    reflexivity. }
  split.
  { exists (List.filter kept
              (all_matches true Patterns.hardcoded_secrets content)).
    split; [apply check_secrets_add_all|].
    intros m'. by rewrite filter_In, kept_spec. }
  rewrite !check_secrets_add_all.
  split; [|split].
  - replace (List.filter kept _) with (@nil Re.rmatch)
      by (vm_compute; reflexivity).
    apply add_all_nil.
  - replace (List.filter kept _) with (@nil Re.rmatch)
      by (vm_compute; reflexivity).
    apply add_all_nil.
  - replace (map _ (List.filter kept _)) with [example_secret_finding]
      by (vm_compute; reflexivity).
    reflexivity.
Qed.

Lemma secret_suppression_witness :
  (env_idiom (password_assignment "os.environ.KEY")
   /\ record_secret (password_assignment "os.environ.KEY")
        (fresh_file "a.py" "python")
        (Re.MkMatch 0 (password_assignment "os.environ.KEY"))
      = fresh_file "a.py" "python")
  /\ (~ env_idiom (password_assignment "my.secret.KEY1")
      /\ vulns (record_secret (password_assignment "my.secret.KEY1")
                  (fresh_file "a.py" "python")
                  (Re.MkMatch 0 (password_assignment "my.secret.KEY1")))
         = [example_secret_finding]).
Proof.
  split.
  - assert (H : env_idiom (password_assignment "os.environ.KEY")).
    { left. exists (txt "password = " ++ [dquote]), (txt ".KEY" ++ [dquote]).
      reflexivity. }
    split; [exact H|].
    destruct (secret_suppression (fresh_file "a.py" "python")
                (password_assignment "os.environ.KEY")
                (Re.MkMatch 0 (password_assignment "os.environ.KEY")))
      as (Hskip & _).
    exact (Hskip H).
  - assert (H : ~ env_idiom (password_assignment "my.secret.KEY1")).
    { apply (kept_spec (Re.MkMatch 0 (password_assignment "my.secret.KEY1"))).
      reflexivity. }
    split; [exact H|].
    destruct (secret_suppression (fresh_file "a.py" "python")
                (password_assignment "my.secret.KEY1")
                (Re.MkMatch 0 (password_assignment "my.secret.KEY1")))
      as (_ & Hrec & _).
    rewrite (Hrec H). reflexivity.
Defined.




(** * Further properties of the analyzer *)

(** X1.  [analyze_file] only appends: the path, the language and the
    vulnerabilities already in the record are kept, the new entries are
    those of a scan of the same content from a fresh record, and the score
    is the old score when nothing was found and otherwise the old score
    less the penalties of the new entries, clamped at 0. *)
Theorem analyze_file_appends :
  forall (Any : Type) (fm : FileMetrics) (content : list ascii)
         (ast_data : Any),
    let fm' := analyze_file fm content ast_data in
    let new := scan (language fm) content in
    file_path fm' = file_path fm
    /\ language fm' = language fm
    /\ vulns fm' = vulns fm ++ new
    /\ score fm'
       = match new with
         | [] => score fm
         | _ :: _ => Z.max 0 (score fm - total_penalty (map v_level new))
         end.
Proof.
  intros Any fm content ast_data fm' new. subst fm'.
  rewrite analyze_file_scan. fold new.
  repeat split.
  change (score (add_all fm new)) with (apply_levels (score fm) (map v_level new)).
  destruct new as [|v vs]; [reflexivity|]. apply apply_levels_nonempty.
Qed.

(** X2.  Scanning the same content twice into one record counts every
    finding twice: the second run appends the same entries again and takes
    their penalties off once more, so the result differs from a single run
    exactly when the content has a finding. *)
Theorem analyze_file_twice :
  forall (Any : Type) (fm : FileMetrics) (content : list ascii)
         (ast_data : Any),
    let once := analyze_file fm content ast_data in
    let twice := analyze_file once content ast_data in
    let new := scan (language fm) content in
    vulns twice = vulns fm ++ new ++ new
    /\ score twice = apply_levels (score fm) (map v_level (new ++ new))
    /\ (twice = once <-> new = []).
Proof.
  intros Any fm content ast_data once twice new. subst twice once.
  rewrite !analyze_file_scan.
  change (language (add_all fm ?vs)) with (language fm). fold new.
  rewrite add_all_app.
  split; [reflexivity|]. split; [reflexivity|].
  split.
  - intros E. apply (f_equal vulns) in E. rewrite !vulns_add_all in E.
    apply app_inv_head in E.
    apply (f_equal length) in E. rewrite length_app in E.
    destruct new; [reflexivity | simpl in E; lia].
  - intros ->. reflexivity.
Qed.

Lemma analyze_file_twice_witness :
  scan "python" (txt "import os") = []
  /\ analyze_file
       (analyze_file (fresh_file "a.py" "python") (txt "import os") tt)
       (txt "import os") tt
     = analyze_file (fresh_file "a.py" "python") (txt "import os") tt.
Proof.
  assert (H : scan "python" (txt "import os") = [])
    by (vm_compute; reflexivity).
  split; [exact H|].
  destruct (analyze_file_twice unit (fresh_file "a.py" "python")
              (txt "import os") tt) as (_ & _ & Hiff).
  exact (proj2 Hiff H).
Defined.

(** X3.  Every vulnerability a scan records carries the type identifier
    and level of a rule of the file's language (four Python rules, four
    JavaScript rules, none otherwise), and its severity label is the one
    of its level. *)
Theorem findings_follow_rule_table :
  forall (Any : Type) (path lang : string) (content : list ascii)
         (ast_data : Any) (v : Vulnerability),
    In v (vulns (analyze_file (fresh_file path lang) content ast_data)) ->
    exists t,
      v_type v = Some t
      /\ In (t, v_level v) (rules_of lang)
      /\ v_severity v = _level_to_severity (v_level v).
Proof.
  intros Any path lang content ast_data v Hin.
  rewrite analyze_file_findings, vulns_add_all_fresh in Hin.
  by apply (findings_rules lang content).
Qed.

Lemma findings_follow_rule_table_witness :
  exists t,
    v_type example_secret_finding = Some t
    /\ In (t, v_level example_secret_finding) (rules_of "python")
    /\ v_severity example_secret_finding
       = _level_to_severity (v_level example_secret_finding).
Proof.
  apply (findings_follow_rule_table unit "a.py" "python"
           example_upper_password tt).
  vm_compute. left. reflexivity.
Defined.

(** X4.  The counts of the mapping [analyze_project] builds add up to the
    number of vulnerabilities of all files; a type is a key exactly when
    some vulnerability has it, and every stored count is at least 1. *)
Theorem project_types_total :
  forall (pm : ProjectMetrics),
    let issues := all_issues (file_metrics pm) in
    sum_values (project_types pm) = Z.of_nat (length issues)
    /\ (forall t,
          is_Some (project_types pm !! t)
          <-> exists v, In v issues /\ vuln_type_of v = t)
    /\ (forall t n, project_types pm !! t = Some n -> 1 <= n).
Proof.
  intros pm issues. split; [|split].
  - unfold project_types, analyze_project. simpl.
    rewrite sum_values_fold_files, issues_total_length.
    unfold sum_values. rewrite map_fold_empty. reflexivity.
  - intros t. rewrite project_types_lookup. fold issues.
    destruct (count_type_zero t issues) as [Hz1 Hz2].
    destruct (Z.eqb_spec (count_type t issues) 0) as [E | E]; split.
    + intros [n [=]].
    + intros (v & Hin & Hty). exfalso. by apply (Hz1 E v).
    + intros _.
      destruct (type_occurs_dec t issues) as [H | H]; [exact H|].
      exfalso. apply E, Hz2. exact H.
    + intros _. eauto.
  - intros t n. rewrite project_types_lookup. fold issues.
    pose proof (count_type_nonneg t issues).
    destruct (Z.eqb_spec (count_type t issues) 0); intros [= <-]. lia.
Qed.

Lemma project_types_total_witness :
  1 <= 5
  /\ project_types example_project !! "sql_injection"%string = Some 5.
Proof.
  assert (H : project_types example_project !! "sql_injection"%string
              = Some 5) by (vm_compute; reflexivity).
  split; [|exact H].
  destruct (project_types_total example_project) as (_ & _ & Hpos).
  exact (Hpos "sql_injection"%string 5 H).
Defined.

(** X5.  The mapping [analyze_project] builds depends only on which
    vulnerabilities the files hold together, not on the order of the files
    or of the vulnerabilities, nor on what the project record held
    before. *)
Theorem project_types_order_independent :
  forall (pm pm' : ProjectMetrics),
    Permutation (all_issues (file_metrics pm))
      (all_issues (file_metrics pm')) ->
    project_types pm = project_types pm'.
Proof.
  intros pm pm' Hperm. apply map_eq. intros t.
  rewrite !project_types_lookup.
  by rewrite (count_type_perm t _ _ Hperm).
Qed.

Lemma project_types_order_independent_witness :
  project_types example_project
  = project_types
      (MkProjectMetrics
         (scan_all [("b.py"%string, "python"%string, example_five_critical);
                    ("a.py"%string, "python"%string, example_two_findings)])
         (MkProjectSecurityMetrics {["stale"%string := 7]})).
Proof.
  apply project_types_order_independent.
  unfold example_project. cbn [file_metrics scan_all map all_issues concat].
  rewrite !app_nil_r. apply Permutation_app_comm.
Defined.

(** X6.  The counter that [display_security_issues] fills holds the same
    counts as the mapping of [analyze_project]; the number of issues it
    logs is the sum of those counts; and it prints a table exactly when
    the mapping is not empty. *)
Theorem display_counts_agree :
  forall (pm : ProjectMetrics),
    security_counts pm = project_types pm
    /\ security_issues_total pm = sum_values (project_types pm)
    /\ (has_security_issues pm = true <-> project_types pm <> ∅).
Proof.
  intros pm. split; [apply security_counts_types|].
  destruct (project_types_total pm) as (Hsum & Hkeys & _).
  split.
  - rewrite Hsum. apply issues_total_length.
  - rewrite has_security_issues_spec. split.
    + intros Hne Hempty.
      destruct (all_issues (file_metrics pm)) as [|v vs] eqn:E; [congruence|].
      assert (Hs : is_Some (project_types pm !! vuln_type_of v)).
      { apply Hkeys. exists v. split; [by left | reflexivity]. }
      rewrite Hempty, lookup_empty in Hs. by destruct Hs.
    + intros Hne E. apply Hne. apply map_eq. intros t.
      rewrite lookup_empty. apply eq_None_not_Some. intros Hs.
      apply Hkeys in Hs. destruct Hs as (v & Hin & _).
      simpl in Hin. rewrite E in Hin. destruct Hin.
Qed.

Lemma display_counts_agree_witness :
  has_security_issues example_project = true
  /\ project_types example_project <> ∅.
Proof.
  assert (H : has_security_issues example_project = true)
    by (vm_compute; reflexivity).
  split; [exact H|].
  destruct (display_counts_agree example_project) as (_ & _ & Hiff).
  exact (proj1 Hiff H).
Defined.

(** X7.  When every file record comes from [analyze_file] on a fresh
    record, the keys of the project mapping are among the seven rule
    identifiers; the fallback key [unknown] never appears. *)
Theorem scanned_project_keys :
  forall (inputs : list (string * string * list ascii))
         (stale : ProjectSecurityMetrics) (t : string),
    is_Some (project_types (MkProjectMetrics (scan_all inputs) stale) !! t) ->
    In t rule_types /\ t <> "unknown"%string.
Proof.
  intros inputs stale t Hs.
  destruct (project_types_total (MkProjectMetrics (scan_all inputs) stale))
    as (_ & Hkeys & _).
  apply Hkeys in Hs. destruct Hs as (v & Hin & Hty).
  apply scan_all_issue in Hin. destruct Hin as (t' & Ht' & Hrule).
  unfold vuln_type_of in Hty. rewrite Ht' in Hty. subst t'.
  split; [exact Hrule|].
  intros ->. unfold rule_types in Hrule. cbn [In] in Hrule.
  repeat (destruct Hrule as [Hrule | Hrule]; [discriminate Hrule|]).
  destruct Hrule.
Qed.

Lemma scanned_project_keys_witness :
  In "sql_injection"%string rule_types
  /\ "sql_injection"%string <> "unknown"%string.
Proof.
  apply (scanned_project_keys
           [("a.py"%string, "python"%string, example_two_findings);
            ("b.py"%string, "python"%string, example_five_critical)]
           (MkProjectSecurityMetrics ∅)).
  vm_compute. eauto.
Defined.

(** X8.  Line and column determine the offset: for an offset [p] inside the
    content, the start of the reported line plus the reported column less
    one is [p] again, and no newline lies between that line start and
    [p]. *)
Theorem line_column_round_trip :
  forall (content : list ascii) (p : Z),
    0 <= p <= Z.of_nat (length content) ->
    let loc := _get_line_number content p in
    let start := line_start content (Z.to_nat (line loc - 1)) in
    Z.of_nat start + (column loc - 1) = p
    /\ ~ In Chars.newline
         (firstn (Z.to_nat (column loc - 1)) (skipn start content)).
Proof.
  intros content p Hp loc start. subst start loc.
  unfold _get_line_number. rewrite slice_to_nonneg by lia.
  cbn [line column].
  set (before_p := firstn (Z.to_nat p) content).
  destruct (split_nl_last before_p) as (pre & Hs & Hfree & Hpre).
  set (seg := List.last (split_nl before_p) []) in *.
  assert (Hcount : count_occ ascii_dec before_p Chars.newline
                   = count_occ ascii_dec pre Chars.newline).
  { rewrite Hs at 1. rewrite count_occ_app, (count_nl_free seg Hfree). lia. }
  assert (Hline : Z.to_nat (Z.of_nat (length (split_nl before_p)) - 1)
                  = count_occ ascii_dec pre Chars.newline).
  { rewrite split_nl_length, Hcount. lia. }
  assert (Hlen : length before_p = Z.to_nat p).
  { unfold before_p. rewrite length_firstn. lia. }
  assert (Hcontent : content = pre ++ seg ++ skipn (Z.to_nat p) content).
  { rewrite app_assoc, <- Hs. unfold before_p.
    symmetry. apply firstn_skipn. }
  rewrite Hline.
  replace (Z.of_nat (length seg) + 1 - 1) with (Z.of_nat (length seg)) by lia.
  rewrite Nat2Z.id.
  rewrite Hs, length_app in Hlen.
  clearbody seg. clear Hs Hcount Hline. clearbody before_p.
  remember (skipn (Z.to_nat p) content) as rest eqn:Hrest. clear Hrest.
  subst content.
  rewrite (line_start_prefix pre _ Hpre).
  split; [lia|].
  rewrite drop_app_length, take_app_length. exact Hfree.
Qed.

Lemma line_column_round_trip_witness :
  0 <= 6 <= Z.of_nat (length example_three_lines)
  /\ Z.of_nat
       (line_start example_three_lines
          (Z.to_nat (line (_get_line_number example_three_lines 6) - 1)))
     + (column (_get_line_number example_three_lines 6) - 1) = 6.
Proof.
  assert (Hp : 0 <= 6 <= Z.of_nat (length example_three_lines))
    by (simpl; lia).
  split; [exact Hp|].
  apply (line_column_round_trip example_three_lines 6 Hp).
Defined.

(** X9.  [_get_line_number] is defined for every integer offset: line and
    column are at least 1 and the line is at most the number of lines of
    the content; an offset past the end gives the line and column of the
    end; a negative offset counts from the end, as the slice does; and the
    line does not decrease when the offset grows. *)
Theorem get_line_number_edges :
  forall (content : list ascii) (p q : Z),
    let len := Z.of_nat (length content) in
    let loc := _get_line_number content in
    (1 <= line (loc p)
       <= 1 + Z.of_nat (count_occ ascii_dec content Chars.newline))
    /\ 1 <= column (loc p)
    /\ position (loc p) = p
    /\ (len <= p ->
        line (loc p) = line (loc len) /\ column (loc p) = column (loc len))
    /\ (p < 0 ->
        line (loc p) = line (loc (Z.max 0 (len + p)))
        /\ column (loc p) = column (loc (Z.max 0 (len + p))))
    /\ (0 <= p <= q -> line (loc p) <= line (loc q)).
Proof.
  intros content p q len loc. subst loc. unfold _get_line_number.
  cbn [line column position].
  assert (Hslice : exists n, slice_to content p = firstn n content).
  { unfold slice_to. destruct (p <? 0); eauto. }
  destruct Hslice as [n Hn].
  split.
  { rewrite Hn, split_nl_length.
    pose proof (count_nl_firstn n content). lia. }
  split; [lia|]. split; [reflexivity|].
  split.
  { intros Hp. rewrite !slice_to_nonneg by lia.
    rewrite !firstn_all2 by lia. split; reflexivity. }
  split.
  { intros Hp. rewrite (slice_to_neg _ _ Hp).
    rewrite (slice_to_nonneg content (Z.max 0 (len + p))) by lia.
    split; reflexivity. }
  intros Hpq. rewrite !slice_to_nonneg by lia.
  assert (E : firstn (Z.to_nat q) content
              = firstn (Z.to_nat p) content
                ++ skipn (Z.to_nat p) (firstn (Z.to_nat q) content)).
  { rewrite <- (firstn_skipn (Z.to_nat p) (firstn (Z.to_nat q) content)) at 1.
    f_equal. rewrite take_take. f_equal. lia. }
  rewrite E. pose proof (split_nl_app_length (firstn (Z.to_nat p) content)
    (skipn (Z.to_nat p) (firstn (Z.to_nat q) content))). lia.
Qed.

Lemma get_line_number_edges_witness :
  (Z.of_nat (length example_four_lines) <= 20
   /\ line (_get_line_number example_four_lines 20) = 4
   /\ column (_get_line_number example_four_lines 20) = 4)
  /\ (-3 < 0 /\ line (_get_line_number example_four_lines (-3)) = 4
      /\ column (_get_line_number example_four_lines (-3)) = 1)
  /\ (0 <= 2 <= 5
      /\ line (_get_line_number example_four_lines 2)
         <= line (_get_line_number example_four_lines 5)).
Proof.
  destruct (get_line_number_edges example_four_lines 20 0)
    as (_ & _ & _ & Hend & _).
  destruct (get_line_number_edges example_four_lines (-3) 0)
    as (_ & _ & _ & _ & Hneg & _).
  destruct (get_line_number_edges example_four_lines 2 5)
    as (_ & _ & _ & _ & _ & Hmono).
  assert (H1 : Z.of_nat (length example_four_lines) <= 20) by (simpl; lia).
  assert (H2 : -3 < 0) by lia.
  assert (H3 : 0 <= 2 <= 5) by lia.
  split; [|split].
  - split; [exact H1|]. destruct (Hend H1) as [-> ->]. split; reflexivity.
  - split; [exact H2|]. destruct (Hneg H2) as [-> ->]. split; reflexivity.
  - split; [exact H3 | exact (Hmono H3)].
Defined.

(** X10.  After [analyze_file] on a fresh record every finding costs
    between 5 and 25 points: with [n] findings the score lies between
    [max 0 (100 - 25 n)] and [max 0 (100 - 5 n)], so the score is 100
    exactly when nothing was found and 0 as soon as there are 20
    findings. *)
Theorem score_bounds_by_count :
  forall (Any : Type) (path lang : string) (content : list ascii)
         (ast_data : Any),
    let fm := analyze_file (fresh_file path lang) content ast_data in
    let n := Z.of_nat (length (vulns fm)) in
    Z.max 0 (100 - 25 * n) <= score fm <= Z.max 0 (100 - 5 * n)
    /\ (score fm = 100 <-> vulns fm = [])
    /\ (20 <= n -> score fm = 0).
Proof.
  intros Any path lang content ast_data fm n.
  assert (Hfm : fm = add_all (fresh_file path lang) (findings lang content))
    by apply analyze_file_findings.
  assert (Hvs : vulns fm = findings lang content)
    by (rewrite Hfm; apply vulns_add_all_fresh).
  assert (Hscore : score fm
            = Z.max 0 (100 - total_penalty (map v_level (vulns fm)))).
  { rewrite Hfm at 1. rewrite score_add_all_fresh, <- Hvs.
    apply apply_levels_closed. lia. }
  assert (Hpen : 5 * n <= total_penalty (map v_level (vulns fm)) <= 25 * n).
  { subst n. apply total_penalty_bounds. intros v Hv. rewrite Hvs in Hv.
    destruct (findings_rules lang content v Hv) as (t & _ & Hr & _).
    by apply (rules_of_penalty lang t). }
  split; [lia|]. split; [|lia].
  split.
  - intros H100. destruct (vulns fm) as [|v vs]; [reflexivity|].
    exfalso. subst n. simpl length in Hpen. lia.
  - intros E. rewrite Hscore, E. reflexivity.
Qed.

Lemma score_bounds_by_count_witness :
  20 <= Z.of_nat
          (length
             (vulns (analyze_file (fresh_file "a.js" "javascript")
                       example_many_writes tt)))
  /\ score (analyze_file (fresh_file "a.js" "javascript")
              example_many_writes tt) = 0.
Proof.
  assert (H : 20 <= Z.of_nat
          (length
             (vulns (analyze_file (fresh_file "a.js" "javascript")
                       example_many_writes tt))))
    by (vm_compute; discriminate).
  split; [exact H|].
  destruct (score_bounds_by_count unit "a.js" "javascript"
              example_many_writes tt) as (_ & _ & Hzero).
  exact (Hzero H).
Defined.

(** X11.  Content with no opening parenthesis and no equals sign has no
    finding, in any language: [analyze_file] returns the record it was
    given. *)
Theorem no_trigger_no_finding :
  forall (Any : Type) (fm : FileMetrics) (content : list ascii)
         (ast_data : Any),
    ~ In "("%char content -> ~ In "="%char content ->
    analyze_file fm content ast_data = fm.
Proof.
  intros Any fm content ast_data Hparen Heq.
  rewrite analyze_file_findings, findings_nil; [apply add_all_nil|].
  intros ic p Hp.
  destruct (Re.finditer ic p content) as [|m ms] eqn:E; [reflexivity|].
  exfalso.
  destruct (match_has_trigger ic p content m Hp) as [H | H];
    [rewrite E; by left | exact (Hparen H) | exact (Heq H)].
Qed.

Lemma no_trigger_no_finding_witness :
  analyze_file (fresh_file "a.py" "python")
    (txt "import os" ++ nl ++ txt "print os.environ, password") tt
  = fresh_file "a.py" "python".
Proof.
  apply no_trigger_no_finding;
    simpl; intros H;
    repeat (destruct H as [H | H]; [discriminate H|]); destruct H.
Defined.

(** X12.  Every finding of a scan points into the content: its position is
    the start of a match, at least 0 and below the length of the content,
    its location is what [_get_line_number] gives for that position, and
    its message ends with the decimal line number of that location. *)
Theorem findings_are_located :
  forall (Any : Type) (path lang : string) (content : list ascii)
         (ast_data : Any) (v : Vulnerability),
    In v (vulns (analyze_file (fresh_file path lang) content ast_data)) ->
    0 <= position (v_location v) < Z.of_nat (length content)
    /\ v_location v = _get_line_number content (position (v_location v))
    /\ exists prefix,
         v_message v = (prefix +:+ show (line (v_location v)))%string.
Proof.
  intros Any path lang content ast_data v Hin.
  rewrite analyze_file_findings, vulns_add_all_fresh in Hin.
  destruct (findings_origin lang content v Hin)
    as (ic & p & m & t & prefix & level & Hp & Hm & ->).
  pose proof (match_starts_inside ic p content m Hp Hm) as Hlt.
  unfold found. cbn [v_location v_message].
  change (position (_get_line_number content ?x)) with x.
  split; [lia|]. split; [reflexivity|]. by exists prefix.
Qed.

Lemma findings_are_located_witness :
  0 <= position (v_location example_flagged_call)
    < Z.of_nat (length example_two_calls).
Proof.
  apply (findings_are_located unit "a.py" "python" example_two_calls tt
           example_flagged_call).
  vm_compute. left. reflexivity.
Defined.

(** X13.  The findings of a rule with a single pattern are recorded from
    left to right: in the vulnerabilities that [_check_for_eval],
    [_check_for_document_write] and [_check_for_innerhtml] add to a fresh
    record, every position is smaller than all later ones. *)
Theorem single_rule_findings_in_order :
  forall (path lang : string) (content : list ascii),
    let fm := fresh_file path lang in
    StronglySorted position_before (vulns (_check_for_eval fm content))
    /\ StronglySorted position_before
         (vulns (_check_for_document_write fm content))
    /\ StronglySorted position_before
         (vulns (_check_for_innerhtml fm content)).
Proof.
  intros path lang content fm.
  unfold _check_for_eval, _check_for_document_write, _check_for_innerhtml.
  rewrite !fold_record_match. subst fm. rewrite !vulns_add_all_fresh.
  repeat split; apply found_positions_sorted, finditer_from_sorted.
Qed.

(** X14.  The JavaScript rules record only what their patterns describe:
    [unsafe_eval] at [eval(], and [document_write] at [document.write(],
    followed by a non-empty argument and a closing parenthesis (a call
    with empty parentheses is not recorded); [innerhtml] at [.innerHTML],
    blanks, an equals sign, blanks and a non-empty value that extends to
    the next semicolon or, without one, to the end of the content. *)
Theorem js_rules_sound :
  forall (path lang : string) (content : list ascii) (v : Vulnerability),
    let fm := fresh_file path lang in
    (In v (vulns (_check_for_eval fm content)) ->
       v_type v = Some "unsafe_eval" /\ v_level v = HIGH_RISK
       /\ exists off, position (v_location v) = Z.of_nat off
                      /\ at_js_call "eval(" content off)
    /\ (In v (vulns (_check_for_document_write fm content)) ->
          v_type v = Some "document_write" /\ v_level v = MEDIUM_RISK
          /\ exists off, position (v_location v) = Z.of_nat off
                         /\ at_js_call "document.write(" content off)
    /\ (In v (vulns (_check_for_innerhtml fm content)) ->
          v_type v = Some "innerhtml" /\ v_level v = MEDIUM_RISK
          /\ exists off, position (v_location v) = Z.of_nat off
                         /\ at_innerhtml content off).
Proof.
  intros path lang content v fm.
  unfold _check_for_eval, _check_for_document_write, _check_for_innerhtml.
  rewrite !fold_record_match. subst fm. rewrite !vulns_add_all_fresh.
  repeat split;
    try (apply in_map_found_origin in H; destruct H as (m & _ & ->);
         reflexivity).
  - apply in_map_found_origin in H. destruct H as (m & Hm & ->).
    exists (Re.m_start m). split; [reflexivity|].
    apply finditer_sound in Hm. destruct Hm as (out & _ & Hmatch & _).
    apply js_call_inv in Hmatch. destruct Hmatch as (body & Hs & Hne & Hfree).
    by exists body, out.
  - apply in_map_found_origin in H. destruct H as (m & Hm & ->).
    exists (Re.m_start m). split; [reflexivity|].
    apply finditer_sound in Hm. destruct Hm as (out & _ & Hmatch & _).
    apply js_call_inv in Hmatch. destruct Hmatch as (body & Hs & Hne & Hfree).
    by exists body, out.
  - apply in_map_found_origin in H. destruct H as (m & Hm & ->).
    exists (Re.m_start m). split; [reflexivity|].
    apply finditer_sound in Hm. destruct Hm as (out & _ & Hmatch & _).
    apply innerhtml_inv in Hmatch.
    destruct Hmatch as (ws1 & ws2 & value & Hs & H1 & H2 & Hne & Hfree & Hend).
    by exists ws1, ws2, value, out.
Qed.

Lemma js_rules_sound_witness :
  In example_innerhtml_finding
     (vulns (_check_for_innerhtml (fresh_file "a.js" "javascript")
               example_innerhtml))
  /\ exists off,
       position (v_location example_innerhtml_finding) = Z.of_nat off
       /\ at_innerhtml example_innerhtml off.
Proof.
  assert (Hin : In example_innerhtml_finding
     (vulns (_check_for_innerhtml (fresh_file "a.js" "javascript")
               example_innerhtml))) by (vm_compute; left; reflexivity).
  split; [exact Hin|].
  destruct (js_rules_sound "a.js" "javascript" example_innerhtml
              example_innerhtml_finding) as (_ & _ & H).
  exact (proj2 (proj2 (H Hin))).
Defined.

(** X15.  A [cursor.execute] call that concatenates strings is counted
    twice: when the text before the plus sign has no comma and a closing
    parenthesis follows, the Python scan records a CRITICAL
    [sql_injection] at the call (the [cursor.execute] pattern) and another
    one seven characters further (the [execute] pattern), so a fresh
    record ends with a score of at most 50. *)
Theorem cursor_execute_counted_twice :
  forall (Any : Type) (path : string) (ast_data : Any)
         (a rest : list ascii),
    ~ In ","%char a -> In ")"%char rest ->
    let fm := analyze_file (fresh_file path "python")
                (cursor_execute_concat a rest) ast_data in
    (exists v1 v2,
        In v1 (vulns fm) /\ In v2 (vulns fm)
        /\ position (v_location v1) = 0 /\ position (v_location v2) = 7
        /\ v_type v1 = Some "sql_injection"
        /\ v_type v2 = Some "sql_injection"
        /\ v_level v1 = CRITICAL /\ v_level v2 = CRITICAL)
    /\ score fm <= 50.
Proof.
  intros Any path ast_data a rest Ha Hrest fm.
  destruct (cursor_execute_matches a rest Ha Hrest) as (g1 & g2 & H7 & H0).
  set (content := cursor_execute_concat a rest) in *.
  set (mk := found content "sql_injection" "Possible SQL injection at line "
               CRITICAL).
  assert (Hfm : fm = add_all (fresh_file path "python")
                       (python_findings content)).
  { subst fm. rewrite analyze_file_findings. unfold findings.
    unfold content, cursor_execute_concat. reflexivity. }
  assert (Hvs : vulns fm = python_findings content)
    by (rewrite Hfm; apply vulns_add_all_fresh).
  assert (Hin : forall m,
             In m (all_matches false Patterns.sql_injection content) ->
             In (mk m) (vulns fm)).
  { intros m Hm. rewrite Hvs. unfold python_findings.
    rewrite !in_app_iff. right. left. by apply in_map. }
  assert (Hne : mk (Re.MkMatch 0 g2) <> mk (Re.MkMatch 7 g1)).
  { intros E. apply (f_equal (fun v => position (v_location v))) in E.
    discriminate E. }
  split.
  - exists (mk (Re.MkMatch 0 g2)), (mk (Re.MkMatch 7 g1)).
    repeat split; by apply Hin.
  - pose proof (two_penalties (vulns fm) _ _ (Hin _ H0) (Hin _ H7) Hne) as Hp.
    rewrite Hfm at 1. rewrite score_add_all_fresh, <- Hvs.
    rewrite apply_levels_closed by lia.
    change (penalty (v_level (mk ?m))) with 25 in Hp. lia.
Qed.

Lemma cursor_execute_counted_twice_witness :
  score (analyze_file (fresh_file "db.py" "python")
           (cursor_execute_concat (txt "q ") (txt " name)")) tt) <= 50.
Proof.
  apply (cursor_execute_counted_twice unit "db.py" tt (txt "q ")
           (txt " name)")).
  - simpl. intros H.
    repeat (destruct H as [H | H]; [discriminate H|]). destruct H.
  - simpl. tauto.
Defined.



(** X17.  The SQL rule records only [execute(] calls whose text before the
    first comma has a plus sign, a percent sign or an f-string with a brace
    pair (for [cursor.execute(], a plus sign); each finding is CRITICAL.
    A query whose percent placeholder comes before the comma of its
    parameters is therefore recorded as well. *)
Theorem sql_rules_sound :
  forall (path lang : string) (content : list ascii) (v : Vulnerability),
    In v (vulns (_check_for_sql_injection (fresh_file path lang) content)) ->
    v_type v = Some "sql_injection"
    /\ v_level v = CRITICAL
    /\ exists off,
         position (v_location v) = Z.of_nat off
         /\ at_sql_injection content off.
Proof.
  intros path lang content v Hin.
  unfold _check_for_sql_injection in Hin.
  rewrite scan_patterns_fold, fold_record_match, vulns_add_all_fresh in Hin.
  apply in_map_found_origin in Hin. destruct Hin as (m & Hm & ->).
  split; [reflexivity|]. split; [reflexivity|].
  exists (Re.m_start m). split; [reflexivity|].
  apply in_all_matches in Hm. destruct Hm as (p & Hp & Hm).
  apply finditer_sound in Hm. destruct Hm as (out & _ & Hmatch & _).
  unfold Patterns.sql_injection in Hp. cbn [In] in Hp.
  destruct Hp as [<- | [<- | [<- | [<- | []]]]].
  - apply concat_pattern_inv in Hmatch.
    destruct Hmatch as (a & b & Hs & Ha & Hb).
    left. exists "execute("%string, a, b, out.
    split; [by left | by repeat split].
  - apply concat_pattern_inv in Hmatch.
    destruct Hmatch as (a & b & Hs & Ha & Hb).
    right. left. by exists a, b, out.
  - apply fstring_pattern_inv in Hmatch.
    destruct Hmatch as (a & q1 & s1 & s2 & s3 & q2 & Hs & H).
    right. right. by exists a, q1, s1, s2, s3, q2, out.
  - apply concat_pattern_inv in Hmatch.
    destruct Hmatch as (a & b & Hs & Ha & Hb).
    left. exists "cursor.execute("%string, a, b, out.
    split; [right; by left | by repeat split].
Qed.

Lemma sql_rules_sound_witness :
  In example_parameterised_finding
     (vulns (_check_for_sql_injection (fresh_file "db.py" "python")
               example_parameterised))
  /\ exists off,
       position (v_location example_parameterised_finding) = Z.of_nat off
       /\ at_sql_injection example_parameterised off.
Proof.
  assert (Hin : In example_parameterised_finding
     (vulns (_check_for_sql_injection (fresh_file "db.py" "python")
               example_parameterised)))
    by (vm_compute; left; reflexivity).
  split; [exact Hin|].
  exact (proj2 (proj2 (sql_rules_sound "db.py" "python"
                         example_parameterised
                         example_parameterised_finding Hin))).
Defined.

(** X18.  The deserialization rule records only [pickle.loads(],
    [pickle.load(] and [marshal.loads(], and [yaml.load(] when its
    parentheses hold no comma: a [yaml.load] call with a second argument
    is not recorded.  Each finding is HIGH_RISK. *)
Theorem deserialization_rules_sound :
  forall (path lang : string) (content : list ascii) (v : Vulnerability),
    In v (vulns (_check_for_insecure_deserialization (fresh_file path lang)
                   content)) ->
    v_type v = Some "insecure_deserialization"
    /\ v_level v = HIGH_RISK
    /\ exists off,
         position (v_location v) = Z.of_nat off
         /\ at_deserialization content off.
Proof.
  intros path lang content v Hin.
  unfold _check_for_insecure_deserialization in Hin.
  rewrite scan_patterns_fold, fold_record_match, vulns_add_all_fresh in Hin.
  apply in_map_found_origin in Hin. destruct Hin as (m & Hm & ->).
  split; [reflexivity|]. split; [reflexivity|].
  exists (Re.m_start m). split; [reflexivity|].
  apply in_all_matches in Hm. destruct Hm as (p & Hp & Hm).
  apply finditer_sound in Hm. destruct Hm as (out & _ & Hmatch & _).
  unfold Patterns.insecure_deserialization in Hp. cbn [In] in Hp.
  destruct Hp as [<- | [<- | [<- | [<- | []]]]].
  - apply lit_pattern_inv in Hmatch. left.
    exists "pickle.loads("%string, out. split; [cbn [In]; tauto | exact Hmatch].
  - apply lit_pattern_inv in Hmatch. left.
    exists "pickle.load("%string, out. split; [cbn [In]; tauto | exact Hmatch].
  - apply yaml_pattern_inv in Hmatch. destruct Hmatch as (args & Hs & H).
    right. by exists args, out.
  - apply lit_pattern_inv in Hmatch. left.
    exists "marshal.loads("%string, out. split; [cbn [In]; tauto | exact Hmatch].
Qed.

Lemma deserialization_rules_sound_witness :
  vulns (_check_for_insecure_deserialization (fresh_file "a.py" "python")
           example_yaml) = [example_yaml_finding]
  /\ exists off,
       position (v_location example_yaml_finding) = Z.of_nat off
       /\ at_deserialization example_yaml off.
Proof.
  assert (Hvs : vulns (_check_for_insecure_deserialization
                         (fresh_file "a.py" "python") example_yaml)
                = [example_yaml_finding]) by (vm_compute; reflexivity).
  split; [exact Hvs|].
  refine (proj2 (proj2 (deserialization_rules_sound "a.py" "python"
                          example_yaml example_yaml_finding _))).
  rewrite Hvs. left. reflexivity.
Defined.

(** X19.  Findings are recorded rule by rule, in the order the language
    analyzer calls its checks: a Python scan appends first all
    [os_command_injection] findings, then all [sql_injection], then all
    [insecure_deserialization], then all [hardcoded_secret]; a JavaScript
    scan appends [unsafe_eval], [document_write], [innerhtml] and
    [hardcoded_secret] findings in this order. *)
Theorem findings_grouped_by_rule :
  forall (Any : Type) (fm : FileMetrics) (content : list ascii)
         (ast_data : Any),
    (exists a b c d,
        vulns (_analyze_python_security fm content ast_data)
        = vulns fm ++ a ++ b ++ c ++ d
        /\ all_of_type "os_command_injection" a
        /\ all_of_type "sql_injection" b
        /\ all_of_type "insecure_deserialization" c
        /\ all_of_type "hardcoded_secret" d)
    /\ (exists a b c d,
          vulns (_analyze_js_security fm content ast_data)
          = vulns fm ++ a ++ b ++ c ++ d
          /\ all_of_type "unsafe_eval" a
          /\ all_of_type "document_write" b
          /\ all_of_type "innerhtml" c
          /\ all_of_type "hardcoded_secret" d).
Proof.
  intros Any fm content ast_data.
  rewrite analyze_python_findings, analyze_js_findings, !vulns_add_all.
  unfold python_findings, js_findings, secret_found.
  split; eexists _, _, _, _; (split; [reflexivity|]);
    repeat split; apply map_found_type.
Qed.

